(** * Stateful swapping strategy: memory aggregates, compaction and decision policy

    Shallow embedding of [src/strategy/strategies/stateful_swapping.py].

    Modelling conventions.
    - Python [float] values are idealised as exact rationals ([Q]): finite
      values, exact arithmetic, no NaN and no rounding.  Numeric results are
      therefore compared with [==] ([Qeq]); branch conditions use boolean
      comparisons on [Q].
    - Python [int] values are [Z]; [len] is a [nat] injected into [Z].
    - [TradeSide], a [Literal] of three strings, is an enumeration.
    - The two dictionaries of [StrategyMemory] always carry exactly the three
      [TradeSide] keys (they are built by the [default_factory] and only ever
      assigned at those keys), so a dictionary is a total map
      [TradeSide -> Q].
    - Every division of the source sits under a guard that makes its divisor
      positive; the embedding keeps each guard next to its division, so [Qdiv]
      is never applied to zero.
    - [max(...)] in [summarize_if_needed] returns one of the objects of the
      list and the code then compares objects with [is].  A list element is
      therefore an object: an identity [oid] together with the [TradeRecord]
      value stored there.
    - [time.time()] and the identity given to a newly built [TradeRecord] are
      supplied by the environment: they are explicit arguments. *)

From Stdlib Require Import ZArith QArith Qabs List Bool Lia Lqa.
Import ListNotations.
Open Scope Q_scope.

(** ** Python numeric built-ins on the rational model *)

Module Py.

(** [x < y] as a boolean test. *)
Definition ltb (x y : Q) : bool := negb (Qle_bool y x).

(** [x > y] and [x <= y] as boolean tests. *)
Definition gtb (x y : Q) : bool := ltb y x.
Definition leb (x y : Q) : bool := Qle_bool x y.

(** [min(a, b)]: the first argument is kept unless the second is strictly
    smaller. *)
Definition min (a b : Q) : Q := if ltb b a then b else a.

(** [max(a, b)]: the first argument is kept unless the second is strictly
    larger. *)
Definition max (a b : Q) : Q := if gtb b a then b else a.

(** [abs(x)] *)
Definition abs (x : Q) : Q := Qabs x.

(** [sum(xs)] over floats: left to right, starting from 0. *)
Definition sum (xs : list Q) : Q := fold_left Qplus xs 0.

(** [sum(xs)] over ints. *)
Definition sum_int (xs : list Z) : Z := fold_left Z.add xs 0%Z.

(** [len(xs)] as a Python int. *)
Definition len {A : Type} (xs : list A) : Z := Z.of_nat (length xs).

(** [xs[-k:]]: the last [k] elements, all of [xs] when it is shorter. *)
Definition slice_last {A : Type} (k : nat) (xs : list A) : list A :=
  skipn (length xs - k) xs.

(** The scan of [max(xs, key=key)]: [best] is replaced only by an element
    whose key is strictly greater. *)
Fixpoint max_scan {A : Type} (key : A -> Q) (best : A) (xs : list A) : A :=
  match xs with
  | [] => best
  | x :: xs' => max_scan key (if gtb (key x) (key best) then x else best) xs'
  end.

(** [max(xs, key=key, default=None)] *)
Definition max_by {A : Type} (key : A -> Q) (xs : list A) : option A :=
  match xs with
  | [] => None
  | x :: xs' => Some (max_scan key x xs')
  end.

End Py.

(** ** Data model *)

Inductive TradeSide : Set := ETH_TO_USDC | USDC_TO_ETH | HOLD.

Definition TradeSide_eqb (a b : TradeSide) : bool :=
  match a, b with
  | ETH_TO_USDC, ETH_TO_USDC | USDC_TO_ETH, USDC_TO_ETH | HOLD, HOLD => true
  | _, _ => false
  end.

Record TradeRecord : Set := mkTradeRecord {
  timestamp : Q;
  side : TradeSide;
  eth_price : Q;
  size_eth : Q;
  pnl_pct : Q
}.

(** A [TradeRecord] object of the Python heap: what [is] compares, and the
    value stored there. *)
Record TradeObj : Set := mkObj {
  oid : nat;
  val : TradeRecord
}.

(** [a is b] *)
Definition is_ (a b : TradeObj) : bool := Nat.eqb (oid a) (oid b).

(** A dictionary keyed by the three trade sides. *)
Definition Dict (V : Type) : Type := TradeSide -> V.

Definition dict_set {V : Type} (d : Dict V) (k : TradeSide) (v : V) : Dict V :=
  fun k' => if TradeSide_eqb k' k then v else d k'.

(** Iteration order of the dictionaries' keys. *)
Definition dict_keys : list TradeSide := [ETH_TO_USDC; USDC_TO_ETH; HOLD].

Record StrategyMemory : Type := mkMemory {
  trades : list TradeObj;
  success_rates : Dict Q;
  avg_pnl : Dict Q;
  max_trades_kept : Z;
  last_summary_at : Q;
  summary_cooldown_sec : Z
}.

Definition set_trades (m : StrategyMemory) (ts : list TradeObj) : StrategyMemory :=
  mkMemory ts (success_rates m) (avg_pnl m) (max_trades_kept m)
           (last_summary_at m) (summary_cooldown_sec m).

Definition set_metrics (m : StrategyMemory) (k : TradeSide) (sr ap : Q) : StrategyMemory :=
  mkMemory (trades m) (dict_set (success_rates m) k sr) (dict_set (avg_pnl m) k ap)
           (max_trades_kept m) (last_summary_at m) (summary_cooldown_sec m).

Definition set_last_summary_at (m : StrategyMemory) (now : Q) : StrategyMemory :=
  mkMemory (trades m) (success_rates m) (avg_pnl m) (max_trades_kept m)
           now (summary_cooldown_sec m).

(** The dataclass defaults, with [max_trades_kept] as the constructor of the
    strategy passes it. *)
Definition new_memory (max_kept : Z) : StrategyMemory :=
  mkMemory [] (fun _ => 0) (fun _ => 0) max_kept 0 120.

Record StatefulSwapStrategy : Type := mkStrategy {
  memory : StrategyMemory;
  rebalance_threshold : Q;
  observe_cycles_before_trade : Z;
  observed_cycles : Z;
  _last_price : option Q
}.

Definition set_memory (s : StatefulSwapStrategy) (m : StrategyMemory) : StatefulSwapStrategy :=
  mkStrategy m (rebalance_threshold s) (observe_cycles_before_trade s)
             (observed_cycles s) (_last_price s).

Definition set_last_price (s : StatefulSwapStrategy) (p : Q) : StatefulSwapStrategy :=
  mkStrategy (memory s) (rebalance_threshold s) (observe_cycles_before_trade s)
             (observed_cycles s) (Some p).

(** ** StrategyMemory *)

(** [by_side[k].append(x)] *)
Definition by_side_append (d : Dict (list Q)) (k : TradeSide) (x : Q) : Dict (list Q) :=
  dict_set d k (d k ++ [x]).

(** The first loop of [update_metrics]: the PnL values of each side, in log
    order. *)
Definition group_by_side (ts : list TradeObj) : Dict (list Q) :=
  fold_left (fun d t => by_side_append d (side (val t)) (pnl_pct (val t)))
            ts (fun _ => []).

(** The body of the second loop of [update_metrics]. *)
Definition update_side (m : StrategyMemory) (sd : TradeSide) (arr : list Q) : StrategyMemory :=
  match arr with
  | [] => set_metrics m sd 0 0
  | _ :: _ =>
      let wins := Py.sum_int (map (fun _ => 1%Z) (filter (fun x => Py.gtb x 0) arr)) in
      set_metrics m sd
        (inject_Z wins / inject_Z (Py.len arr))
        (Py.sum arr / inject_Z (Py.len arr))
  end.

Definition update_metrics (m : StrategyMemory) : StrategyMemory :=
  match trades m with
  | [] => fold_left (fun m' k => set_metrics m' k 0 0) dict_keys m
  | _ :: _ =>
      let by_side := group_by_side (trades m) in
      fold_left (fun m' sd => update_side m' sd (by_side sd)) dict_keys m
  end.

(** [now] is the value read from the clock on entry. *)
Definition summarize_if_needed (now : Q) (m : StrategyMemory) : StrategyMemory :=
  if (Py.len (trades m) <=? max_trades_kept m)%Z then m
  else if Py.ltb (now - last_summary_at m) (inject_Z (summary_cooldown_sec m)) then m
  else
    let best_trade := Py.max_by (fun t => pnl_pct (val t)) (trades m) in
    let recent := Py.slice_last 10 (trades m) in
    let kept :=
      match best_trade with
      | Some b => if forallb (fun t => negb (is_ t b)) recent
                  then recent ++ [b] else recent
      | None => recent
      end in
    set_last_summary_at (update_metrics (set_trades m kept)) now.

(** ** StatefulSwapStrategy *)

(** [StatefulSwapStrategy.__init__] *)
Definition new_strategy (rebalance_threshold : Q) (observe_cycles_before_trade : Z)
    (max_trades_kept : Z) : StatefulSwapStrategy :=
  mkStrategy (new_memory max_trades_kept) rebalance_threshold
             observe_cycles_before_trade 0 None.

Definition observe (s : StatefulSwapStrategy) (eth_price : Q)
    (market_volatility : option Q) : StatefulSwapStrategy :=
  mkStrategy (memory s) (rebalance_threshold s) (observe_cycles_before_trade s)
             (observed_cycles s + 1) (Some eth_price).

Definition _market_signal (s : StatefulSwapStrategy) (eth_price : Q) : Q :=
  match _last_price s with
  | None => 0
  | Some last =>
      let delta := eth_price - last in
      let rel := if Py.gtb last 0 then delta / last else 0 in
      Py.max (Py.min rel 0.02) (-0.02)
  end.

(** [decide] returns the chosen side and the strategy as it leaves it. *)
Definition decide (s : StatefulSwapStrategy) (eth_price portfolio_eth portfolio_usdc : Q)
    (recent_market_signal : option Q) : TradeSide * StatefulSwapStrategy :=
  if (observed_cycles s <? observe_cycles_before_trade s)%Z then
    (HOLD, set_last_price s eth_price)
  else
    let eth_to_usdc_score := avg_pnl (memory s) ETH_TO_USDC in
    let usdc_to_eth_score := avg_pnl (memory s) USDC_TO_ETH in
    let market_bias :=
      match recent_market_signal with
      | None => _market_signal s eth_price
      | Some sig => sig
      end in
    let score_buy_eth := usdc_to_eth_score + market_bias in
    let score_sell_eth := eth_to_usdc_score - market_bias in
    if Py.leb (rebalance_threshold s) 0 then
      if Py.gtb score_buy_eth score_sell_eth && Py.gtb portfolio_usdc 0 then
        (USDC_TO_ETH, set_last_price s eth_price)
      else if Py.gtb score_sell_eth score_buy_eth && Py.gtb portfolio_eth 0 then
        (ETH_TO_USDC, set_last_price s eth_price)
      else
        (HOLD, set_last_price s eth_price)
    else
      let diff := Py.abs (score_buy_eth - score_sell_eth) in
      if Py.ltb diff (rebalance_threshold s) then
        (HOLD, set_last_price s eth_price)
      else
        (if Py.gtb score_buy_eth score_sell_eth then USDC_TO_ETH else ETH_TO_USDC,
         set_last_price s eth_price).

(** [new_oid] is the identity of the [TradeRecord] built by the call,
    [stamp] the clock value read for its timestamp and [now] the later clock
    value read by [summarize_if_needed]. *)
Definition record_trade_outcome (s : StatefulSwapStrategy) (new_oid : nat) (stamp now : Q)
    (side : TradeSide) (entry_price exit_price size_eth : Q) : StatefulSwapStrategy :=
  let pnl_pct :=
    match side with
    | USDC_TO_ETH =>
        if Py.gtb entry_price 0 then (exit_price - entry_price) / entry_price else 0
    | ETH_TO_USDC =>
        if Py.gtb entry_price 0 then (entry_price - exit_price) / entry_price else 0
    | HOLD => 0
    end in
  let t := mkObj new_oid (mkTradeRecord stamp side exit_price size_eth pnl_pct) in
  let m1 := set_trades (memory s) (trades (memory s) ++ [t]) in
  let m2 := update_metrics m1 in
  set_memory s (summarize_if_needed now m2).

(** ** Reachable states

    The states a caller can produce: construction, then any sequence of
    [observe], [decide], [record_trade_outcome] and compaction passes.  The
    identity of a newly built record differs from the identities of the
    records still in the log. *)

Definition fresh (o : nat) (s : StatefulSwapStrategy) : Prop :=
  ~ In o (map oid (trades (memory s))).

Inductive reachable : StatefulSwapStrategy -> Prop :=
| reach_new : forall thr warmup max_kept,
    reachable (new_strategy thr warmup max_kept)
| reach_observe : forall s price vol,
    reachable s -> reachable (observe s price vol)
| reach_decide : forall s price eth usdc sig,
    reachable s -> reachable (snd (decide s price eth usdc sig))
| reach_record : forall s o stamp now sd entry exit size,
    reachable s -> fresh o s ->
    reachable (record_trade_outcome s o stamp now sd entry exit size)
| reach_compact : forall s now,
    reachable s -> reachable (set_memory s (summarize_if_needed now (memory s))).

(** ** What the specification says, in its own words *)

Module Spec.

Definition pnl (t : TradeObj) : Q := pnl_pct (val t).

(** The records of the log with side [a]. *)
Definition with_side (a : TradeSide) (ts : list TradeObj) : list TradeObj :=
  filter (fun t => TradeSide_eqb (side (val t)) a) ts.

(** [pnl_pct > 0] *)
Definition is_win (t : TradeObj) : bool :=
  if Qlt_le_dec 0 (pnl t) then true else false.

(** The records of the log with side [a] and a positive PnL. *)
Definition winners (a : TradeSide) (ts : list TradeObj) : list TradeObj :=
  filter (fun t => TradeSide_eqb (side (val t)) a && is_win t) ts.

Definition count {A : Type} (l : list A) : Q := inject_Z (Z.of_nat (length l)).

(** Wins over records of side [a]; 0 when there is no such record. *)
Definition win_fraction (a : TradeSide) (ts : list TradeObj) : Q :=
  match with_side a ts with
  | [] => 0
  | _ :: _ => count (winners a ts) / count (with_side a ts)
  end.

Definition total (xs : list Q) : Q := fold_right Qplus 0 xs.

(** Arithmetic mean of the PnL of the records of side [a]; 0 when there is
    no such record. *)
Definition mean_pnl (a : TradeSide) (ts : list TradeObj) : Q :=
  match with_side a ts with
  | [] => 0
  | _ :: _ => total (map pnl (with_side a ts)) / count (with_side a ts)
  end.

(** The aggregates are the exact recomputation over the log. *)
Definition metrics_exact (m : StrategyMemory) : Prop :=
  forall a, success_rates m a == win_fraction a (trades m) /\
            avg_pnl m a == mean_pnl a (trades m).

(** Clamping to the closed interval [[lo, hi]]. *)
Definition clamp (lo hi x : Q) : Q :=
  if Qlt_le_dec x lo then lo else if Qlt_le_dec hi x then hi else x.

(** computeMarketSignal *)
Definition market_signal (last : option Q) (price : Q) : Q :=
  match last with
  | None => 0
  | Some l =>
      clamp (-0.02) 0.02 (if Qlt_le_dec 0 l then (price - l) / l else 0)
  end.

(** The PnL fraction of a closed position. *)
Definition outcome_pnl (sd : TradeSide) (entry exit : Q) : Q :=
  match sd with
  | HOLD => 0
  | USDC_TO_ETH => if Qlt_le_dec 0 entry then (exit - entry) / entry else 0
  | ETH_TO_USDC => if Qlt_le_dec 0 entry then (entry - exit) / entry else 0
  end.

(** compactIfDue triggers: the log is longer than the bound and the cooldown
    has elapsed. *)
Definition compaction_fires (now : Q) (m : StrategyMemory) : Prop :=
  (Z.of_nat (length (trades m)) > max_trades_kept m)%Z /\
  inject_Z (summary_cooldown_sec m) <= now - last_summary_at m.

(** The record at position [i] is the first one with the highest PnL. *)
Definition first_highest (ts : list TradeObj) (i : nat) (b : TradeObj) : Prop :=
  nth_error ts i = Some b /\
  (forall t, In t ts -> pnl t <= pnl b) /\
  (forall j t, (j < i)%nat -> nth_error ts j = Some t -> pnl t < pnl b).

(** Position of the first element that passes the test [p]. *)
Fixpoint find_index {A : Type} (p : A -> bool) (l : list A) : option nat :=
  match l with
  | [] => None
  | x :: l' => if p x then Some O else option_map S (find_index p l')
  end.

(** Position of the first record whose PnL no record exceeds. *)
Definition best_index (ts : list TradeObj) : option nat :=
  find_index (fun t => forallb (fun u => Qle_bool (pnl u) (pnl t)) ts) ts.

(** The retained set of a compaction, in the order of the log: the positions
    of the last 10 records and the position of the best record. *)
Definition retained_chronological (ts : list TradeObj) : list TradeObj :=
  let n := length ts in
  let keep (it : nat * TradeObj) :=
    (n - 10 <=? fst it)%nat ||
    match best_index ts with Some b => (fst it =? b)%nat | None => false end in
  map snd (filter keep (combine (seq 0 n) ts)).

(** [l1] is [l2] with some elements left out: the order of [l2] is kept. *)
Fixpoint subsequence (l1 l2 : list TradeObj) : Prop :=
  match l1, l2 with
  | [], _ => True
  | _ :: _, [] => False
  | x :: l1', y :: l2' => (x = y /\ subsequence l1' l2') \/ subsequence l1 l2'
  end.

(** Claim C2 as the specification words it. *)
Definition compaction_keeps_log_order (now : Q) (m : StrategyMemory) : Prop :=
  compaction_fires now m ->
  trades (summarize_if_needed now m) = retained_chronological (trades m) /\
  subsequence (trades (summarize_if_needed now m)) (trades m).

(** No two records of the log share an identity. *)
Definition distinct_objects (ts : list TradeObj) : Prop := NoDup (map oid ts).

(** An identity stands for one object: two entries of the log with the same
    identity are the same record.  The same object may occur twice. *)
Definition same_identity_same_record (ts : list TradeObj) : Prop :=
  forall a b, In a ts -> In b ts -> oid a = oid b -> a = b.

End Spec.

(** ** Concrete scenarios *)

Module Scenario.

(** A fresh strategy with the default configuration. *)
Definition fresh_default : StatefulSwapStrategy := new_strategy 0 0 100.

(** One closed buy: entered at 3000, left at 3100. *)
Definition after_one_buy : StatefulSwapStrategy :=
  record_trade_outcome fresh_default 0 1000 1000 USDC_TO_ETH 3000 3100 1.

(** One recorded HOLD outcome, with different entry and exit prices. *)
Definition after_one_hold : StatefulSwapStrategy :=
  record_trade_outcome fresh_default 0 1000 1000 HOLD 3000 3100 1.

(** A strategy still warming up: two observation cycles are required and
    one was made. *)
Definition warming_up : StatefulSwapStrategy :=
  observe (new_strategy 0 2 100) 3000 None.

(** A strategy that saw the price 3000 and needs no warmup. *)
Definition saw_3000 : StatefulSwapStrategy :=
  snd (decide fresh_default 3000 1 3000 None).

(** The same with a rebalance threshold of 0.01. *)
Definition gated_saw_3000 : StatefulSwapStrategy :=
  snd (decide (new_strategy 0.01 0 100) 3000 1 3000 None).

(** The [i]-th outcome of a run in which only the first buy is a big win:
    entered at 3000, left at 3300 the first time and at 3030 afterwards. *)
Definition nth_outcome (s : StatefulSwapStrategy) (i : nat) : StatefulSwapStrategy :=
  let clock := inject_Z (1000 + Z.of_nat i) in
  record_trade_outcome s i clock clock USDC_TO_ETH 3000
    (if (i =? 0)%nat then 3300 else 3030) 1.

(** Ten outcomes recorded with [max_trades_kept = 10]: no compaction yet. *)
Definition ten_outcomes : StatefulSwapStrategy :=
  fold_left nth_outcome (seq 0 10) (new_strategy 0 0 10).

(** Twelve outcomes: the eleventh makes the compaction fire at 1010, the
    twelfth is recorded at 1130, when the cooldown of 120 has elapsed. *)
Definition twelve_outcomes : StatefulSwapStrategy :=
  record_trade_outcome (nth_outcome ten_outcomes 10)
    11 1130 1130 USDC_TO_ETH 3000 3030 1.

(** The log of [ten_outcomes] with the eleventh record appended and the
    aggregates refreshed: the memory on which the eleventh call of
    [record_trade_outcome] runs [summarize_if_needed]. *)
Definition eleven_records : StrategyMemory :=
  update_metrics
    (set_trades (memory ten_outcomes)
       (trades (memory ten_outcomes) ++
        [mkObj 10 (mkTradeRecord 1010 USDC_TO_ETH 3030 1 ((3030 - 3000) / 3000))])).

End Scenario.

(** ** Auxiliary definitions used in the statements *)

(** The scores [decide] compares once warmup is over. *)
Definition market_bias (s : StatefulSwapStrategy) (price : Q) (sig : option Q) : Q :=
  match sig with
  | Some v => v
  | None => _market_signal s price
  end.

Definition buy_score (s : StatefulSwapStrategy) (price : Q) (sig : option Q) : Q :=
  avg_pnl (memory s) USDC_TO_ETH + market_bias s price sig.

Definition sell_score (s : StatefulSwapStrategy) (price : Q) (sig : option Q) : Q :=
  avg_pnl (memory s) ETH_TO_USDC - market_bias s price sig.

(** The two aggregates of one side, from the PnL values grouped under it:
    the assignments made by one round of the second loop of
    [update_metrics]. *)
Definition side_rate (arr : list Q) : Q :=
  match arr with
  | [] => 0
  | _ :: _ =>
      inject_Z (Py.sum_int (map (fun _ => 1%Z) (filter (fun x => Py.gtb x 0) arr)))
      / inject_Z (Py.len arr)
  end.

Definition side_mean (arr : list Q) : Q :=
  match arr with
  | [] => 0
  | _ :: _ => Py.sum arr / inject_Z (Py.len arr)
  end.

(** Every record of side HOLD carries a PnL of 0. *)
Definition hold_records_flat (ts : list TradeObj) : Prop :=
  forall t, In t ts -> side (val t) = HOLD -> pnl_pct (val t) = 0.

(** What [summarize_if_needed] keeps when it fires. *)
Definition kept_trades (ts : list TradeObj) : list TradeObj :=
  let recent := Py.slice_last 10 ts in
  match Py.max_by (fun t => pnl_pct (val t)) ts with
  | Some b => if forallb (fun t => negb (is_ t b)) recent
              then recent ++ [b] else recent
  | None => recent
  end.

(** ** Sequences of calls

    A caller's script against one strategy object: the three public methods
    and a direct compaction pass on its memory. *)

Inductive Call : Type :=
| CallObserve (eth_price : Q) (market_volatility : option Q)
| CallDecide (eth_price portfolio_eth portfolio_usdc : Q)
             (recent_market_signal : option Q)
| CallRecord (new_oid : nat) (stamp now : Q) (sd : TradeSide)
             (entry_price exit_price size : Q)
| CallCompact (now : Q).

Definition call (s : StatefulSwapStrategy) (c : Call) : StatefulSwapStrategy :=
  match c with
  | CallObserve p vol => observe s p vol
  | CallDecide p eth usdc sig => snd (decide s p eth usdc sig)
  | CallRecord o stamp now sd entry exit size =>
      record_trade_outcome s o stamp now sd entry exit size
  | CallCompact now => set_memory s (summarize_if_needed now (memory s))
  end.

Definition calls (s : StatefulSwapStrategy) (cs : list Call) : StatefulSwapStrategy :=
  fold_left call cs s.

Definition is_observe (c : Call) : bool :=
  match c with
  | CallObserve _ _ => true
  | _ => false
  end.

(** The record [record_trade_outcome] builds. *)
Definition new_record (o : nat) (stamp : Q) (sd : TradeSide) (entry exit size : Q) : TradeObj :=
  mkObj o (mkTradeRecord stamp sd exit size (Spec.outcome_pnl sd entry exit)).

(** The memory on which [record_trade_outcome] runs [summarize_if_needed]:
    the record appended and the aggregates refreshed. *)
Definition appended_memory (s : StatefulSwapStrategy) (t : TradeObj) : StrategyMemory :=
  update_metrics (set_trades (memory s) (trades (memory s) ++ [t])).

(** ** The runner: [src/strategy/scripts/run_stateful_strategy.py]

    The loop of [main] as a function of what the environment supplies at each
    iteration.  Console output and [time.sleep] leave the state alone and are
    not modelled; the decision each iteration prints is returned.  The
    amounts of the swap stub are rationals here and rounded in the code, so
    the properties stated of them are about signs and about which balance a
    trade empties, not about exact cancellation. *)

Module Runner.

(** [draw] is the value of [random.uniform(-30, 30)]. *)
Definition get_eth_price_stub (draw : Q) : Q := 3000 + draw.

(** The pair the stub returns. *)
Definition execute_swap_stub (sd : TradeSide) (amount_eth amount_usdc price : Q) : Q * Q :=
  match sd with
  | USDC_TO_ETH =>
      let eth_bought := if Py.gtb price 0 then amount_usdc / price else 0 in
      (eth_bought, 0)
  | ETH_TO_USDC =>
      let usdc_received := amount_eth * price in
      (0, usdc_received)
  | HOLD => (amount_eth, amount_usdc)
  end.

(** The command line arguments the loop depends on ([--sleep-sec] and
    [--seed] only set the pacing and the random generator). *)
Record Args : Type := mkArgs {
  iterations : Z;
  observe_cycles : Z;
  arg_rebalance_threshold : Q;
  initial_eth : Q;
  initial_usdc : Q
}.

(** What the environment supplies in one iteration: the random draw of the
    price stub and, for the call of [record_trade_outcome] if there is one,
    the identity of the new record and the two clock readings. *)
Record Tick : Type := mkTick {
  draw : Q;
  tick_oid : nat;
  tick_stamp : Q;
  tick_now : Q
}.

(** The local variables of [main] that live across iterations. *)
Record Run : Type := mkRun {
  strategy : StatefulSwapStrategy;
  portfolio_eth : Q;
  portfolio_usdc : Q;
  entry_side : option TradeSide;
  entry_price : option Q;
  entry_size_eth : Q
}.

(** The state before the loop. *)
Definition start (args : Args) : Run :=
  mkRun (new_strategy (arg_rebalance_threshold args) (observe_cycles args) 200)
        (initial_eth args) (initial_usdc args) None None 0.

(** The strategy after the warmup observation and the realization of the
    pending entry, with the pending entry as these two steps leave it. *)
Definition realize (args : Args) (i : Z) (tk : Tick) (r : Run)
    : StatefulSwapStrategy * option TradeSide * option Q * Q :=
  let price := get_eth_price_stub (draw tk) in
  let s1 := if (i <? observe_cycles args)%Z
            then observe (strategy r) price None else strategy r in
  match entry_side r, entry_price r with
  | Some sd, Some ep =>
      (record_trade_outcome s1 (tick_oid tk) (tick_stamp tk) (tick_now tk)
         sd ep price (entry_size_eth r),
       None, None, 0)
  | _, _ => (s1, entry_side r, entry_price r, entry_size_eth r)
  end.

(** The body of the loop: the decision of the iteration and the state it
    leaves. *)
Definition iteration (args : Args) (i : Z) (tk : Tick) (r : Run) : TradeSide * Run :=
  let price := get_eth_price_stub (draw tk) in
  let '(s2, e_side, e_price, e_size) := realize args i tk r in
  let '(sd, s3) := decide s2 price (portfolio_eth r) (portfolio_usdc r) None in
  if TradeSide_eqb sd USDC_TO_ETH && Py.gtb (portfolio_usdc r) 0 then
    let eth_bought :=
      fst (execute_swap_stub sd (portfolio_eth r) (portfolio_usdc r) price) in
    (sd, mkRun s3 (portfolio_eth r + eth_bought) 0 (Some sd) (Some price) eth_bought)
  else if TradeSide_eqb sd ETH_TO_USDC && Py.gtb (portfolio_eth r) 0 then
    let usdc_received :=
      snd (execute_swap_stub sd (portfolio_eth r) (portfolio_usdc r) price) in
    (sd, mkRun s3 0 (portfolio_usdc r + usdc_received) (Some sd) (Some price)
           (portfolio_eth r))
  else
    (sd, mkRun s3 (portfolio_eth r) (portfolio_usdc r) e_side e_price e_size).

(** The loop from index [i] on, one iteration per tick. *)
Fixpoint loop (args : Args) (i : Z) (ticks : list Tick) (r : Run) : list TradeSide * Run :=
  match ticks with
  | [] => ([], r)
  | tk :: rest =>
      let '(sd, r1) := iteration args i tk r in
      let '(sds, r2) := loop args (i + 1) rest r1 in
      (sd :: sds, r2)
  end.

(** [main]: [range(args.iterations)] iterations from the start state.  The
    environment supplies one tick per iteration. *)
Definition main (args : Args) (ticks : list Tick) : list TradeSide * Run :=
  loop args 0 (firstn (Z.to_nat (iterations args)) ticks) (start args).

(** The draws are what [random.uniform(-30, 30)] can return. *)
Definition draws_in_range (ticks : list Tick) : Prop :=
  Forall (fun tk => -30 <= draw tk <= 30) ticks.

(** A short run: five iterations with the defaults of the argument parser
    for the rest, and ticks whose draws rise by 10 each time. *)
Definition short_args : Args := mkArgs 5 0 0 1 3000.

(** The same with three warmup cycles. *)
Definition warmup_args : Args := mkArgs 5 3 0 1 3000.

Definition rising_ticks : list Tick :=
  map (fun i => mkTick (inject_Z (10 * Z.of_nat i - 20)) i
                       (inject_Z (1000 + Z.of_nat i)) (inject_Z (1000 + Z.of_nat i)))
      (seq 0 5).

End Runner.

(** * Properties *)

(** ** Comparisons and Python built-ins *)

Lemma ltb_true (x y : Q) : Py.ltb x y = true <-> x < y.
Proof.
  unfold Py.ltb. rewrite negb_true_iff.
  split; intro H.
  - apply Qnot_le_lt. intro Hle. apply Qle_bool_iff in Hle. congruence.
  - apply not_true_is_false. intro Hle. apply Qle_bool_iff in Hle.
    apply (Qlt_not_le _ _ H Hle).
Qed.

Lemma ltb_false (x y : Q) : Py.ltb x y = false <-> y <= x.
Proof.
  unfold Py.ltb. rewrite negb_false_iff. apply Qle_bool_iff.
Qed.

Lemma gtb_true (x y : Q) : Py.gtb x y = true <-> y < x.
Proof. apply ltb_true. Qed.

Lemma gtb_false (x y : Q) : Py.gtb x y = false <-> x <= y.
Proof. apply ltb_false. Qed.

Lemma leb_true (x y : Q) : Py.leb x y = true <-> x <= y.
Proof. apply Qle_bool_iff. Qed.

Lemma leb_false (x y : Q) : Py.leb x y = false <-> y < x.
Proof.
  unfold Py.leb. split; intro H.
  - apply Qnot_le_lt. intro Hle. apply Qle_bool_iff in Hle. congruence.
  - apply not_true_is_false. intro Hle. apply Qle_bool_iff in Hle.
    apply (Qlt_not_le _ _ H Hle).
Qed.

(** Case analysis on a boolean comparison, leaving the order fact in the
    context. *)
Ltac cmp_cases x y :=
  let E := fresh "Hcmp" in
  destruct (Py.ltb x y) eqn:E;
  [ apply ltb_true in E | apply ltb_false in E ].

Ltac gt_cases x y :=
  let E := fresh "Hcmp" in
  destruct (Py.gtb x y) eqn:E;
  [ apply gtb_true in E | apply gtb_false in E ].

Lemma min_max_clamp (lo hi x : Q) :
  lo <= hi -> Py.max (Py.min x hi) lo = Spec.clamp lo hi x.
Proof.
  intro Hlh. unfold Py.max, Py.min, Spec.clamp.
  cmp_cases hi x.
  - destruct (Qlt_le_dec x lo) as [Hx | Hx]; [lra |].
    destruct (Qlt_le_dec hi x) as [Hy | Hy]; [| lra].
    gt_cases lo hi; [lra | reflexivity].
  - destruct (Qlt_le_dec x lo) as [Hx | Hx].
    + gt_cases lo x; [reflexivity | lra].
    + gt_cases lo x; [lra |].
      destruct (Qlt_le_dec hi x) as [Hy | Hy]; [lra | reflexivity].
Qed.

Lemma clamp_bounds (lo hi x : Q) :
  lo <= hi -> lo <= Spec.clamp lo hi x <= hi.
Proof.
  intro Hlh. unfold Spec.clamp.
  destruct (Qlt_le_dec x lo); [lra |].
  destruct (Qlt_le_dec hi x); lra.
Qed.

(** ** The decision policy *)

Lemma decide_state (s : StatefulSwapStrategy) (price eth usdc : Q) (sig : option Q) :
  snd (decide s price eth usdc sig) = set_last_price s price.
Proof.
  unfold decide.
  destruct (observed_cycles s <? observe_cycles_before_trade s)%Z; [reflexivity |].
  destruct (Py.leb (rebalance_threshold s) 0).
  - destruct (Py.gtb _ _ && Py.gtb usdc 0); [reflexivity |].
    destruct (Py.gtb _ _ && Py.gtb eth 0); reflexivity.
  - destruct (Py.ltb _ _); reflexivity.
Qed.

(** C3: while the warmup counter is below the warmup target, [decide]
    returns HOLD whatever the price, the balances, the memory and the
    override signal are. *)
Theorem C3_decide_holds_during_warmup
    (s : StatefulSwapStrategy) (price eth usdc : Q) (sig : option Q) :
  (observed_cycles s < observe_cycles_before_trade s)%Z ->
  fst (decide s price eth usdc sig) = HOLD.
Proof.
  intro Hwarm. unfold decide.
  apply Z.ltb_lt in Hwarm. rewrite Hwarm. reflexivity.
Qed.

Lemma C3_witness :
  (observed_cycles Scenario.warming_up
     < observe_cycles_before_trade Scenario.warming_up)%Z /\
  fst (decide Scenario.warming_up 3100 1 3000 (Some 0.02)) = HOLD.
Proof.
  split.
  - reflexivity.
  - apply (C3_decide_holds_during_warmup Scenario.warming_up). reflexivity.
Defined.

(** C9: on every return path [decide] stores the price argument as the last
    seen price and leaves the memory (trade log and both aggregate maps), the
    warmup counter and the configuration as they were. *)
Theorem C9_decide_only_updates_last_price
    (s : StatefulSwapStrategy) (price eth usdc : Q) (sig : option Q) :
  let s' := snd (decide s price eth usdc sig) in
  _last_price s' = Some price /\
  memory s' = memory s /\
  observed_cycles s' = observed_cycles s /\
  observe_cycles_before_trade s' = observe_cycles_before_trade s /\
  rebalance_threshold s' = rebalance_threshold s.
Proof.
  cbv zeta. rewrite decide_state. repeat split.
Qed.

(** C6: the market signal is 0 without a last seen price; otherwise it is the
    relative change against the last price (0 when that price is not
    positive) clamped to [-0.02, 0.02]; from 3000 to 3100 it is exactly
    0.02. *)
Theorem C6_market_signal_is_clamped_relative_change
    (s : StatefulSwapStrategy) (price : Q) :
  _market_signal s price = Spec.market_signal (_last_price s) price /\
  (_last_price s = None -> _market_signal s price = 0) /\
  -0.02 <= _market_signal s price <= 0.02 /\
  _market_signal Scenario.saw_3000 3100 = 0.02.
Proof.
  assert (Heq : _market_signal s price = Spec.market_signal (_last_price s) price).
  { unfold _market_signal, Spec.market_signal.
    destruct (_last_price s) as [last |]; [| reflexivity].
    cbv zeta. rewrite min_max_clamp by (vm_compute; discriminate).
    f_equal. gt_cases last 0; destruct (Qlt_le_dec 0 last); try reflexivity; lra. }
  split; [exact Heq |]. split; [| split].
  - intro Hnone. unfold _market_signal. rewrite Hnone. reflexivity.
  - rewrite Heq. unfold Spec.market_signal.
    destruct (_last_price s).
    + apply clamp_bounds. vm_compute. discriminate.
    + split; vm_compute; discriminate.
  - vm_compute. reflexivity.
Qed.

Lemma decide_active (s : StatefulSwapStrategy) (price eth usdc : Q) (sig : option Q) :
  (observe_cycles_before_trade s <= observed_cycles s)%Z ->
  fst (decide s price eth usdc sig) =
    let buy := buy_score s price sig in
    let sell := sell_score s price sig in
    if Py.leb (rebalance_threshold s) 0 then
      if Py.gtb buy sell && Py.gtb usdc 0 then USDC_TO_ETH
      else if Py.gtb sell buy && Py.gtb eth 0 then ETH_TO_USDC
      else HOLD
    else if Py.ltb (Py.abs (buy - sell)) (rebalance_threshold s) then HOLD
    else if Py.gtb buy sell then USDC_TO_ETH else ETH_TO_USDC.
Proof.
  intro Hactive. apply Z.ltb_ge in Hactive.
  unfold decide, buy_score, sell_score, market_bias. rewrite Hactive. cbv zeta.
  destruct sig as [v |];
    (destruct (Py.leb (rebalance_threshold s) 0);
     [ destruct (Py.gtb _ _ && Py.gtb usdc 0); [reflexivity |];
       destruct (Py.gtb _ _ && Py.gtb eth 0); reflexivity
     | destruct (Py.ltb _ _); reflexivity ]).
Qed.

(** C4: with warmup complete and a rebalance threshold that is not positive,
    [decide] returns USDC_TO_ETH exactly when the buy score exceeds the sell
    score and the USDC balance is positive, ETH_TO_USDC exactly when the sell
    score exceeds the buy score and the ETH balance is positive, and HOLD in
    every other case, a score tie included. *)
Theorem C4_decide_without_threshold
    (s : StatefulSwapStrategy) (price eth usdc : Q) (sig : option Q) :
  (observe_cycles_before_trade s <= observed_cycles s)%Z ->
  rebalance_threshold s <= 0 ->
  let buy := buy_score s price sig in
  let sell := sell_score s price sig in
  let r := fst (decide s price eth usdc sig) in
  (r = USDC_TO_ETH <-> sell < buy /\ 0 < usdc) /\
  (r = ETH_TO_USDC <-> buy < sell /\ 0 < eth) /\
  (~ (sell < buy /\ 0 < usdc) -> ~ (buy < sell /\ 0 < eth) -> r = HOLD) /\
  (buy == sell -> r = HOLD).
Proof.
  intros Hactive Hthr. cbv zeta.
  rewrite (decide_active s price eth usdc sig Hactive). cbv zeta.
  apply leb_true in Hthr. rewrite Hthr.
  set (buy := buy_score s price sig). set (sell := sell_score s price sig).
  gt_cases buy sell; gt_cases usdc 0; gt_cases sell buy; gt_cases eth 0;
    cbn [andb];
    repeat split; intros; try discriminate; try reflexivity; try tauto;
    try lra.
  all: repeat match goal with H : _ /\ _ |- _ => destruct H end; try lra.
  all: try (exfalso; tauto).
Qed.

Lemma C4_witness :
  (observe_cycles_before_trade Scenario.after_one_buy
     <= observed_cycles Scenario.after_one_buy)%Z /\
  rebalance_threshold Scenario.after_one_buy <= 0 /\
  (fst (decide Scenario.after_one_buy 3100 1 3000 None) = USDC_TO_ETH <->
   sell_score Scenario.after_one_buy 3100 None
     < buy_score Scenario.after_one_buy 3100 None /\ 0 < 3000).
Proof.
  split; [vm_compute; discriminate |].
  split; [vm_compute; discriminate |].
  apply (C4_decide_without_threshold Scenario.after_one_buy 3100 1 3000 None);
    vm_compute; discriminate.
Defined.

(** C5: with warmup complete and a positive rebalance threshold, [decide]
    returns HOLD when the score gap is below the threshold, and otherwise
    USDC_TO_ETH when the buy score exceeds the sell score and ETH_TO_USDC
    when it does not; the balances play no part, so the answer with empty
    balances is the same. *)
Theorem C5_decide_with_threshold
    (s : StatefulSwapStrategy) (price eth usdc : Q) (sig : option Q) :
  (observe_cycles_before_trade s <= observed_cycles s)%Z ->
  0 < rebalance_threshold s ->
  let buy := buy_score s price sig in
  let sell := sell_score s price sig in
  let r := fst (decide s price eth usdc sig) in
  (Qabs (buy - sell) < rebalance_threshold s -> r = HOLD) /\
  (rebalance_threshold s <= Qabs (buy - sell) -> sell < buy -> r = USDC_TO_ETH) /\
  (rebalance_threshold s <= Qabs (buy - sell) -> buy <= sell -> r = ETH_TO_USDC) /\
  r = fst (decide s price 0 0 sig).
Proof.
  intros Hactive Hthr. cbv zeta.
  rewrite !(decide_active s price _ _ sig Hactive). cbv zeta.
  apply leb_false in Hthr. rewrite Hthr. unfold Py.abs.
  set (buy := buy_score s price sig). set (sell := sell_score s price sig).
  cmp_cases (Qabs (buy - sell)) (rebalance_threshold s).
  - repeat split; intros; try reflexivity; lra.
  - gt_cases buy sell; repeat split; intros; try reflexivity; lra.
Qed.

Lemma C5_witness :
  (observe_cycles_before_trade Scenario.gated_saw_3000
     <= observed_cycles Scenario.gated_saw_3000)%Z /\
  0 < rebalance_threshold Scenario.gated_saw_3000 /\
  fst (decide Scenario.gated_saw_3000 3100 0 0 None) = USDC_TO_ETH.
Proof.
  split; [vm_compute; discriminate |].
  split; [vm_compute; reflexivity |].
  apply (C5_decide_with_threshold Scenario.gated_saw_3000 3100 0 0 None);
    vm_compute; try discriminate; reflexivity.
Defined.

(** ** The aggregates of the memory *)

Lemma TradeSide_eqb_eq (a b : TradeSide) : TradeSide_eqb a b = true <-> a = b.
Proof. destruct a, b; simpl; split; intro H; try reflexivity; discriminate. Qed.

Lemma TradeSide_eqb_refl (a : TradeSide) : TradeSide_eqb a a = true.
Proof. destruct a; reflexivity. Qed.

Lemma TradeSide_eqb_sym (a b : TradeSide) : TradeSide_eqb a b = TradeSide_eqb b a.
Proof. destruct a, b; reflexivity. Qed.

(** The grouping loop, started from any dictionary. *)
Lemma group_fold (ts : list TradeObj) (d : Dict (list Q)) (a : TradeSide) :
  fold_left (fun d t => by_side_append d (side (val t)) (pnl_pct (val t))) ts d a
  = d a ++ map Spec.pnl (Spec.with_side a ts).
Proof.
  revert d. induction ts as [| t ts IH]; intro d; simpl.
  - symmetry. apply app_nil_r.
  - rewrite IH. unfold by_side_append, dict_set.
    rewrite (TradeSide_eqb_sym (side (val t)) a).
    destruct (TradeSide_eqb a (side (val t))) eqn:E.
    + apply TradeSide_eqb_eq in E. subst a.
      simpl. rewrite <- app_assoc. reflexivity.
    + reflexivity.
Qed.

Lemma group_by_side_spec (ts : list TradeObj) (a : TradeSide) :
  group_by_side ts a = map Spec.pnl (Spec.with_side a ts).
Proof. unfold group_by_side. rewrite group_fold. reflexivity. Qed.

(** [update_metrics] touches the two dictionaries only. *)
Lemma update_side_frame (m : StrategyMemory) (sd : TradeSide) (arr : list Q) :
  trades (update_side m sd arr) = trades m /\
  max_trades_kept (update_side m sd arr) = max_trades_kept m /\
  last_summary_at (update_side m sd arr) = last_summary_at m /\
  summary_cooldown_sec (update_side m sd arr) = summary_cooldown_sec m.
Proof. destruct arr; repeat split. Qed.

Lemma update_metrics_frame (m : StrategyMemory) :
  trades (update_metrics m) = trades m /\
  max_trades_kept (update_metrics m) = max_trades_kept m /\
  last_summary_at (update_metrics m) = last_summary_at m /\
  summary_cooldown_sec (update_metrics m) = summary_cooldown_sec m.
Proof.
  unfold update_metrics.
  destruct (trades m) as [| t ts] eqn:E.
  - simpl. rewrite E. repeat split.
  - cbv zeta. unfold dict_keys. cbn [fold_left].
    set (g := group_by_side (t :: ts)).
    destruct (update_side_frame m ETH_TO_USDC (g ETH_TO_USDC)) as (A1 & A2 & A3 & A4).
    destruct (update_side_frame (update_side m ETH_TO_USDC (g ETH_TO_USDC))
                USDC_TO_ETH (g USDC_TO_ETH)) as (B1 & B2 & B3 & B4).
    destruct (update_side_frame
                (update_side (update_side m ETH_TO_USDC (g ETH_TO_USDC))
                   USDC_TO_ETH (g USDC_TO_ETH))
                HOLD (g HOLD)) as (K1 & K2 & K3 & K4).
    rewrite K1, K2, K3, K4, B1, B2, B3, B4, A1, A2, A3, A4, E. repeat split.
Qed.

Lemma update_metrics_trades (m : StrategyMemory) :
  trades (update_metrics m) = trades m.
Proof. apply update_metrics_frame. Qed.

(** After [update_metrics] each entry holds the value computed from the
    group of its side. *)
Lemma update_metrics_entries (m : StrategyMemory) (a : TradeSide) :
  success_rates (update_metrics m) a = side_rate (group_by_side (trades m) a) /\
  avg_pnl (update_metrics m) a = side_mean (group_by_side (trades m) a).
Proof.
  unfold update_metrics.
  destruct (trades m) as [| t ts] eqn:E.
  - destruct a; split; reflexivity.
  - cbv zeta. unfold dict_keys. cbn [fold_left].
    set (g := group_by_side (t :: ts)).
    unfold update_side, side_rate, side_mean.
    destruct a; destruct (g ETH_TO_USDC), (g USDC_TO_ETH), (g HOLD);
      split; reflexivity.
Qed.

Lemma sum_int_ones {A : Type} (l : list A) (acc : Z) :
  fold_left Z.add (map (fun _ => 1%Z) l) acc = (acc + Z.of_nat (length l))%Z.
Proof.
  revert acc. induction l as [| x l IH]; intro acc.
  - simpl. lia.
  - cbn [map fold_left length]. rewrite IH. lia.
Qed.

Lemma filter_map_length {A B : Type} (f : A -> B) (p : B -> bool) (l : list A) :
  length (filter p (map f l)) = length (filter (fun x => p (f x)) l).
Proof.
  induction l as [| x l IH]; simpl; [reflexivity |].
  destruct (p (f x)); simpl; rewrite IH; reflexivity.
Qed.

Lemma gtb_zero_is_win (t : TradeObj) : Py.gtb (Spec.pnl t) 0 = Spec.is_win t.
Proof.
  unfold Spec.is_win.
  gt_cases (Spec.pnl t) 0; destruct (Qlt_le_dec 0 (Spec.pnl t));
    [reflexivity | lra | lra | reflexivity].
Qed.

Lemma winners_of_with_side (a : TradeSide) (ts : list TradeObj) :
  filter (fun t => Py.gtb (Spec.pnl t) 0) (Spec.with_side a ts) = Spec.winners a ts.
Proof.
  unfold Spec.with_side, Spec.winners.
  induction ts as [| t ts IH]; simpl; [reflexivity |].
  destruct (TradeSide_eqb (side (val t)) a); simpl.
  - rewrite gtb_zero_is_win. destruct (Spec.is_win t); rewrite IH; reflexivity.
  - exact IH.
Qed.

Lemma filter_length_le {A : Type} (p : A -> bool) (l : list A) :
  (length (filter p l) <= length l)%nat.
Proof.
  induction l as [| x l IH]; simpl; [lia |].
  destruct (p x); simpl; lia.
Qed.

Lemma sum_fold (xs : list Q) (acc : Q) :
  fold_left Qplus xs acc == acc + Spec.total xs.
Proof.
  revert acc. induction xs as [| x xs IH]; intro acc; simpl.
  - ring.
  - rewrite IH. ring.
Qed.

Lemma sum_total (xs : list Q) : Py.sum xs == Spec.total xs.
Proof. unfold Py.sum. rewrite sum_fold. ring. Qed.

(** The win rate the code assigns is the win fraction of the
    specification. *)
Lemma side_rate_spec (a : TradeSide) (ts : list TradeObj) :
  side_rate (group_by_side ts a) = Spec.win_fraction a ts.
Proof.
  rewrite group_by_side_spec. unfold side_rate, Spec.win_fraction.
  destruct (Spec.with_side a ts) as [| t ws] eqn:E; [reflexivity |].
  cbn [map]. unfold Py.sum_int, Py.len, Spec.count.
  rewrite sum_int_ones. rewrite Z.add_0_l.
  change (Spec.pnl t :: map Spec.pnl ws) with (map Spec.pnl (t :: ws)).
  rewrite filter_map_length, length_map.
  rewrite <- E, winners_of_with_side. reflexivity.
Qed.

(** The average the code assigns is the arithmetic mean of the
    specification. *)
Lemma side_mean_spec (a : TradeSide) (ts : list TradeObj) :
  side_mean (group_by_side ts a) == Spec.mean_pnl a ts.
Proof.
  rewrite group_by_side_spec. unfold side_mean, Spec.mean_pnl.
  destruct (Spec.with_side a ts) as [| t ws] eqn:E; [reflexivity |].
  cbn [map]. rewrite (sum_total (Spec.pnl t :: map Spec.pnl ws)).
  unfold Py.len, Spec.count. cbn [length]. rewrite length_map. reflexivity.
Qed.

Lemma update_metrics_exact (m : StrategyMemory) :
  Spec.metrics_exact (update_metrics m).
Proof.
  intro a. rewrite update_metrics_trades.
  destruct (update_metrics_entries m a) as [Hr Hm]. rewrite Hr, Hm.
  rewrite side_rate_spec. split; [reflexivity | apply side_mean_spec].
Qed.

Lemma count_pos {A : Type} (x : A) (l : list A) : 0 < Spec.count (x :: l).
Proof.
  unfold Spec.count. change 0 with (inject_Z 0). rewrite <- Zlt_Qlt.
  simpl length. lia.
Qed.

Lemma win_fraction_bounds (a : TradeSide) (ts : list TradeObj) :
  0 <= Spec.win_fraction a ts <= 1.
Proof.
  unfold Spec.win_fraction.
  destruct (Spec.with_side a ts) as [| t ws] eqn:E; [split; discriminate |].
  assert (Hpos := count_pos t ws).
  assert (Hle : Spec.count (Spec.winners a ts) <= Spec.count (t :: ws)).
  { unfold Spec.count. rewrite <- Zle_Qle. apply Nat2Z.inj_le.
    rewrite <- E, <- winners_of_with_side. apply filter_length_le. }
  assert (H0 : 0 <= Spec.count (Spec.winners a ts)).
  { unfold Spec.count. change 0 with (inject_Z 0). rewrite <- Zle_Qle. lia. }
  split.
  - apply Qle_shift_div_l; [exact Hpos | lra].
  - apply Qle_shift_div_r; [exact Hpos | lra].
Qed.

(** ** Compaction *)

Lemma summarize_fires (now : Q) (m : StrategyMemory) :
  Spec.compaction_fires now m ->
  summarize_if_needed now m =
    set_last_summary_at (update_metrics (set_trades m (kept_trades (trades m)))) now.
Proof.
  intros [Hlen Hcool]. unfold summarize_if_needed, Py.len.
  destruct (Z.leb_spec (Z.of_nat (length (trades m))) (max_trades_kept m)); [lia |].
  apply ltb_false in Hcool. rewrite Hcool. reflexivity.
Qed.

Lemma summarize_idle (now : Q) (m : StrategyMemory) :
  ~ Spec.compaction_fires now m -> summarize_if_needed now m = m.
Proof.
  intro Hno. unfold summarize_if_needed, Py.len.
  destruct (Z.leb_spec (Z.of_nat (length (trades m))) (max_trades_kept m));
    [reflexivity |].
  cmp_cases (now - last_summary_at m) (inject_Z (summary_cooldown_sec m));
    [reflexivity |].
  exfalso. apply Hno. split; [lia | assumption].
Qed.

Lemma fires_dec (now : Q) (m : StrategyMemory) :
  Spec.compaction_fires now m \/ ~ Spec.compaction_fires now m.
Proof.
  unfold Spec.compaction_fires.
  destruct (Z_gt_dec (Z.of_nat (length (trades m))) (max_trades_kept m)) as [H1 | H1];
    [| right; tauto].
  destruct (Qlt_le_dec (now - last_summary_at m) (inject_Z (summary_cooldown_sec m)))
    as [H2 | H2]; [right | left; tauto].
  intros [_ H3]. apply (Qlt_not_le _ _ H2 H3).
Qed.

Lemma summarize_trades (now : Q) (m : StrategyMemory) :
  Spec.compaction_fires now m ->
  trades (summarize_if_needed now m) = kept_trades (trades m).
Proof.
  intro Hf. rewrite (summarize_fires now m Hf).
  unfold set_last_summary_at. cbn [trades].
  rewrite update_metrics_trades. reflexivity.
Qed.

(** The scan of [max]: either the starting element stays, and nothing in the
    list beats it, or the result is the first element of the list that beats
    everything before it and is beaten by nothing. *)
Lemma max_scan_spec {A : Type} (key : A -> Q) (xs : list A) (best : A) :
  let r := Py.max_scan key best xs in
  (r = best /\ forall x, In x xs -> key x <= key best) \/
  (exists j, nth_error xs j = Some r /\
             key best < key r /\
             (forall k y, (k < j)%nat -> nth_error xs k = Some y -> key y < key r) /\
             (forall y, In y xs -> key y <= key r)).
Proof.
  revert best. induction xs as [| x xs IH]; intro best; cbn [Py.max_scan].
  - left. split; [reflexivity | intros x []].
  - gt_cases (key x) (key best).
    + destruct (IH x) as [[Hr Hall] | (j & Hj & Hlt & Hbefore & Hall)].
      * right. exists O. cbv zeta in Hr. rewrite Hr. cbn [nth_error].
        split; [reflexivity |]. split; [assumption |]. split.
        -- intros k y Hk. lia.
        -- intros y [<- | Hy]; [apply Qle_refl | apply Hall, Hy].
      * right. exists (S j). cbn [nth_error].
        split; [exact Hj |]. split; [lra |]. split.
        -- intros [| k] y Hk Hy; cbn [nth_error] in Hy.
           ++ injection Hy as <-. exact Hlt.
           ++ apply (Hbefore k y); [lia | exact Hy].
        -- intros y [<- | Hy]; [lra | apply Hall, Hy].
    + destruct (IH best) as [[Hr Hall] | (j & Hj & Hlt & Hbefore & Hall)].
      * left. split; [exact Hr |].
        intros y [<- | Hy]; [assumption | apply Hall, Hy].
      * right. exists (S j). cbn [nth_error].
        split; [exact Hj |]. split; [exact Hlt |]. split.
        -- intros [| k] y Hk Hy; cbn [nth_error] in Hy.
           ++ injection Hy as <-. lra.
           ++ apply (Hbefore k y); [lia | exact Hy].
        -- intros y [<- | Hy]; [lra | apply Hall, Hy].
Qed.

(** [max(trades, key=pnl_pct)] is the first record with the highest PnL. *)
Lemma max_by_first_highest (ts : list TradeObj) :
  ts <> [] ->
  exists i b, Py.max_by (fun t => pnl_pct (val t)) ts = Some b /\
              Spec.first_highest ts i b.
Proof.
  destruct ts as [| t ts]; [congruence | intros _].
  cbn [Py.max_by].
  destruct (max_scan_spec (fun t => pnl_pct (val t)) ts t)
    as [[Hr Hall] | (j & Hj & Hlt & Hbefore & Hall)]; cbv zeta in *.
  - exists O, t. rewrite Hr. split; [reflexivity |].
    split; [reflexivity |]. split.
    + intros y [<- | Hy]; [apply Qle_refl | apply Hall, Hy].
    + intros j y Hj. lia.
  - exists (S j), (Py.max_scan (fun t => pnl_pct (val t)) t ts).
    split; [reflexivity |]. split; [exact Hj |]. split.
    + intros y [<- | Hy]; [apply Qlt_le_weak, Hlt | apply Hall, Hy].
    + intros [| k] y Hk Hy; cbn [nth_error] in Hy.
      * injection Hy as <-. exact Hlt.
      * apply (Hbefore k y); [lia | exact Hy].
Qed.

(** With pairwise distinct identities, an identity picks one position of the
    log. *)
Lemma distinct_same_position (ts : list TradeObj) (i j : nat) (a b : TradeObj) :
  Spec.distinct_objects ts ->
  nth_error ts i = Some a -> nth_error ts j = Some b ->
  oid a = oid b -> i = j.
Proof.
  intros Hnd Hi Hj Hoid.
  apply (proj1 (NoDup_nth_error (map oid ts)) Hnd).
  - rewrite length_map. apply nth_error_Some. congruence.
  - rewrite !nth_error_map, Hi, Hj. simpl. congruence.
Qed.

Lemma distinct_same_object (ts : list TradeObj) (a b : TradeObj) :
  Spec.distinct_objects ts -> In a ts -> In b ts -> oid a = oid b -> a = b.
Proof.
  intros Hnd Ha Hb Hoid.
  destruct (In_nth_error _ _ Ha) as [i Hi].
  destruct (In_nth_error _ _ Hb) as [j Hj].
  assert (i = j) by (eapply distinct_same_position; eassumption).
  subst j. congruence.
Qed.

(** The identity test of [summarize_if_needed] is a test on the position of
    the best record. *)
Lemma best_not_recent_iff (ts : list TradeObj) (i : nat) (b : TradeObj) :
  Spec.distinct_objects ts ->
  nth_error ts i = Some b ->
  forallb (fun t => negb (is_ t b)) (Py.slice_last 10 ts)
  = (i <? length ts - 10)%nat.
Proof.
  intros Hnd Hi. unfold Py.slice_last.
  set (k := (length ts - 10)%nat).
  destruct (Nat.ltb_spec i k) as [Hlt | Hge].
  - apply forallb_forall. intros t Ht.
    destruct (In_nth_error _ _ Ht) as [j Hj].
    rewrite nth_error_skipn in Hj.
    unfold is_. apply negb_true_iff, Nat.eqb_neq. intro Hoid.
    assert (k + j = i)%nat by (eapply distinct_same_position; eassumption).
    lia.
  - apply not_true_is_false. intro Hall.
    rewrite forallb_forall in Hall.
    assert (Hin : In b (skipn k ts)).
    { apply (nth_error_In _ (i - k)). rewrite nth_error_skipn.
      replace (k + (i - k))%nat with i by lia. exact Hi. }
    specialize (Hall b Hin). unfold is_ in Hall.
    rewrite Nat.eqb_refl in Hall. discriminate.
Qed.

Lemma kept_trades_shape (ts : list TradeObj) (i : nat) (b : TradeObj) :
  Spec.distinct_objects ts ->
  Py.max_by (fun t => pnl_pct (val t)) ts = Some b ->
  nth_error ts i = Some b ->
  kept_trades ts =
    skipn (length ts - 10) ts ++ (if (i <? length ts - 10)%nat then [b] else []).
Proof.
  intros Hnd Hmax Hi. unfold kept_trades. rewrite Hmax.
  rewrite (best_not_recent_iff ts i b Hnd Hi). unfold Py.slice_last.
  destruct (i <? length ts - 10)%nat; [reflexivity |].
  symmetry. apply app_nil_r.
Qed.

Lemma kept_trades_length (ts : list TradeObj) :
  (length (kept_trades ts) <= 11)%nat.
Proof.
  unfold kept_trades, Py.slice_last.
  assert (Hrec : (length (skipn (length ts - 10) ts) <= 10)%nat)
    by (rewrite length_skipn; lia).
  destruct (Py.max_by _ ts) as [b |]; [| lia].
  destruct (forallb _ _); [| lia].
  rewrite length_app. simpl. lia.
Qed.

Lemma kept_trades_incl (ts : list TradeObj) (t : TradeObj) :
  In t (kept_trades ts) -> In t ts.
Proof.
  unfold kept_trades, Py.slice_last. intro Hin.
  assert (Hskip : forall u, In u (skipn (length ts - 10) ts) -> In u ts).
  { intros u Hu. rewrite <- (firstn_skipn (length ts - 10) ts).
    apply in_or_app. right. exact Hu. }
  destruct (Py.max_by _ ts) as [b |] eqn:Hmax; [| auto].
  destruct (forallb _ _); [| auto].
  apply in_app_or in Hin. destruct Hin as [Hin | [<- | []]]; [auto |].
  destruct ts as [| x xs]; [discriminate |].
  destruct (max_by_first_highest (x :: xs)) as (i & b' & Hb' & Hnth & _);
    [discriminate |].
  rewrite Hmax in Hb'. injection Hb' as <-.
  apply (nth_error_In _ _ Hnth).
Qed.

Lemma subsequence_length (l1 l2 : list TradeObj) :
  Spec.subsequence l1 l2 -> (length l1 <= length l2)%nat.
Proof.
  revert l1. induction l2 as [| y l2 IH]; intros [| x l1] H; simpl in *;
    try lia; try contradiction.
  destruct H as [[_ H] | H].
  - apply IH in H. lia.
  - apply IH in H. simpl in H. lia.
Qed.

(** A subsequence as long as the list is the list. *)
Lemma subsequence_full (l1 l2 : list TradeObj) :
  Spec.subsequence l1 l2 -> length l1 = length l2 -> l1 = l2.
Proof.
  revert l1. induction l2 as [| y l2 IH]; intros [| x l1] H Hlen; simpl in *;
    try reflexivity; try discriminate; try contradiction.
  destruct H as [[-> H] | H].
  - f_equal. apply IH; [exact H | lia].
  - apply subsequence_length in H. simpl in H. lia.
Qed.

(** A checker for distinct identities, to settle concrete logs by
    evaluation. *)
Lemma distinct_objects_check (ts : list TradeObj) :
  length (nodup Nat.eq_dec (map oid ts)) = length ts ->
  Spec.distinct_objects ts.
Proof.
  intro H. unfold Spec.distinct_objects.
  rewrite <- (length_map oid ts) in H.
  assert (Heq : nodup Nat.eq_dec (map oid ts) = map oid ts).
  { clear - H. induction (map oid ts) as [| x l IH]; [reflexivity |].
    simpl in *. destruct (in_dec Nat.eq_dec x l) as [Hin | Hin].
    - assert (Hle : (length (nodup Nat.eq_dec l) <= length l)%nat).
      { clear. induction l as [| y l IH]; simpl; [lia |].
        destruct (in_dec Nat.eq_dec y l); simpl; lia. }
      lia.
    - simpl in H. f_equal. apply IH. lia. }
  rewrite <- Heq. apply NoDup_nodup.
Qed.

Lemma distinct_consistent (ts : list TradeObj) :
  Spec.distinct_objects ts -> Spec.same_identity_same_record ts.
Proof.
  intros Hnd a b Ha Hb Hoid. exact (distinct_same_object ts a b Hnd Ha Hb Hoid).
Qed.

(** There is one first record with the highest PnL. *)
Lemma first_highest_unique (ts : list TradeObj) (i j : nat) (a b : TradeObj) :
  Spec.first_highest ts i a -> Spec.first_highest ts j b -> i = j /\ a = b.
Proof.
  intros (Hi & Hmaxa & Hbefa) (Hj & Hmaxb & Hbefb).
  assert (Hij : i = j).
  { destruct (Nat.lt_trichotomy i j) as [Hlt | [Heq | Hgt]]; [| exact Heq |].
    - pose proof (Hbefb i a Hlt Hi) as H1.
      pose proof (Hmaxa b (nth_error_In _ _ Hj)) as H2. lra.
    - pose proof (Hbefa j b Hgt Hj) as H1.
      pose proof (Hmaxb a (nth_error_In _ _ Hi)) as H2. lra. }
  subst j. split; [reflexivity | congruence].
Qed.

(** The record [max] returns is the first record with the highest PnL. *)
Lemma max_by_is_first_highest (ts : list TradeObj) (i : nat) (b : TradeObj) :
  Spec.first_highest ts i b ->
  Py.max_by (fun t => pnl_pct (val t)) ts = Some b.
Proof.
  intro Hfirst.
  assert (Hne : ts <> []).
  { destruct Hfirst as (Hi & _). intro E. subst ts. destruct i; discriminate. }
  destruct (max_by_first_highest ts Hne) as (j & b' & Hmax & Hfirst').
  destruct (first_highest_unique ts i j b b' Hfirst Hfirst') as [_ <-].
  exact Hmax.
Qed.

(** When the identity test finds the best record among the recent ones, the
    best record is one of them. *)
Lemma alias_in_recent (ts recent : list TradeObj) (b : TradeObj) :
  Spec.same_identity_same_record ts ->
  (forall u, In u recent -> In u ts) ->
  In b ts ->
  forallb (fun t => negb (is_ t b)) recent = false ->
  In b recent.
Proof.
  intros Hheap Hrec Hb Hall.
  induction recent as [| t l IH]; [discriminate |].
  cbn [forallb] in Hall. apply andb_false_iff in Hall.
  destruct Hall as [Ht | Hl].
  - left. apply negb_false_iff in Ht. unfold is_ in Ht.
    apply Nat.eqb_eq in Ht.
    apply Hheap; [apply Hrec; left; reflexivity | exact Hb | exact Ht].
  - right. apply IH; [| exact Hl].
    intros u Hu. apply Hrec. right. exact Hu.
Qed.

(** What a compaction keeps, with the identity test read as membership: the
    last 10 records, then the best record unless it is one of them. *)
Lemma kept_trades_spec (ts : list TradeObj) :
  Spec.same_identity_same_record ts ->
  exists extra,
    kept_trades ts = skipn (length ts - 10) ts ++ extra /\
    (ts = [] -> extra = []) /\
    (forall i b, Spec.first_highest ts i b ->
       (In b (skipn (length ts - 10) ts) -> extra = []) /\
       (~ In b (skipn (length ts - 10) ts) -> extra = [b])).
Proof.
  intro Hheap. unfold kept_trades, Py.slice_last.
  set (recent := skipn (length ts - 10) ts).
  assert (Hrec : forall u, In u recent -> In u ts).
  { intros u Hu. rewrite <- (firstn_skipn (length ts - 10) ts).
    apply in_or_app. right. exact Hu. }
  destruct (Py.max_by (fun t => pnl_pct (val t)) ts) as [b |] eqn:Hmax.
  - destruct (forallb (fun t => negb (is_ t b)) recent) eqn:Hall.
    + exists [b]. split; [reflexivity |]. split.
      * intro E. subst ts. discriminate Hmax.
      * intros i b' Hfirst.
        rewrite (max_by_is_first_highest ts i b' Hfirst) in Hmax.
        injection Hmax as ->. split; [| reflexivity].
        intro Hin. rewrite forallb_forall in Hall.
        specialize (Hall b Hin). unfold is_ in Hall.
        rewrite Nat.eqb_refl in Hall. discriminate.
    + exists []. split; [symmetry; apply app_nil_r |]. split; [reflexivity |].
      intros i b' Hfirst.
      rewrite (max_by_is_first_highest ts i b' Hfirst) in Hmax.
      injection Hmax as ->. split; [reflexivity |].
      intro Hnot. exfalso. apply Hnot.
      apply (alias_in_recent ts recent b Hheap Hrec); [| exact Hall].
      destruct Hfirst as (Hi & _). apply (nth_error_In _ _ Hi).
  - exists []. split; [symmetry; apply app_nil_r |]. split; [reflexivity |].
    intros i b Hfirst.
    rewrite (max_by_is_first_highest ts i b Hfirst) in Hmax. discriminate.
Qed.

(** C2 (amended): when compaction fires, the new log is the last 10 entries
    of the old list, by position (all entries when there are fewer), in list
    order, followed by the first record with the highest PnL when that
    record is not already among those entries.  The result is not in
    chronological order in general: the best record is appended after those
    entries, and since an earlier compaction may have left an old best
    record at the end of the list, the last 10 entries need not be the 10
    most recent records. *)
Theorem C2_compaction_keeps_recent_then_best (now : Q) (m : StrategyMemory) :
  Spec.compaction_fires now m ->
  Spec.same_identity_same_record (trades m) ->
  exists extra,
    trades (summarize_if_needed now m) =
      skipn (length (trades m) - 10) (trades m) ++ extra /\
    (trades m = [] -> extra = []) /\
    (forall i b, Spec.first_highest (trades m) i b ->
       (In b (skipn (length (trades m) - 10) (trades m)) -> extra = []) /\
       (~ In b (skipn (length (trades m) - 10) (trades m)) -> extra = [b])).
Proof.
  intros Hf Hheap. rewrite (summarize_trades now m Hf).
  apply kept_trades_spec, Hheap.
Qed.

Lemma C2_witness :
  Spec.compaction_fires 1010 Scenario.eleven_records /\
  Spec.same_identity_same_record (trades Scenario.eleven_records) /\
  exists extra,
    trades (summarize_if_needed 1010 Scenario.eleven_records) =
      skipn (length (trades Scenario.eleven_records) - 10)
            (trades Scenario.eleven_records) ++ extra /\
    (trades Scenario.eleven_records = [] -> extra = []) /\
    (forall i b, Spec.first_highest (trades Scenario.eleven_records) i b ->
       (In b (skipn (length (trades Scenario.eleven_records) - 10)
                    (trades Scenario.eleven_records)) -> extra = []) /\
       (~ In b (skipn (length (trades Scenario.eleven_records) - 10)
                      (trades Scenario.eleven_records)) -> extra = [b])).
Proof.
  assert (Hf : Spec.compaction_fires 1010 Scenario.eleven_records)
    by (split; vm_compute; [reflexivity | discriminate]).
  assert (Hheap : Spec.same_identity_same_record (trades Scenario.eleven_records))
    by (apply distinct_consistent, distinct_objects_check; vm_compute; reflexivity).
  split; [exact Hf |]. split; [exact Hheap |].
  exact (C2_compaction_keeps_recent_then_best 1010 Scenario.eleven_records Hf Hheap).
Defined.

(** C2 as stated fails: with [max_trades_kept = 10], after eleven outcomes
    of which the first has the highest PnL, compaction fires and returns the
    records 1..10 followed by record 0.  That is neither the retained records
    in log order nor a subsequence of the old log; the eleventh call of
    [record_trade_outcome] leaves the memory in exactly that state. *)
Lemma C2_counterexample :
  Spec.compaction_fires 1010 Scenario.eleven_records /\
  map oid (trades Scenario.eleven_records) = seq 0 11 /\
  map oid (trades (summarize_if_needed 1010 Scenario.eleven_records))
    = seq 1 10 ++ [0%nat] /\
  map oid (Spec.retained_chronological (trades Scenario.eleven_records))
    = seq 0 11 /\
  ~ Spec.subsequence (trades (summarize_if_needed 1010 Scenario.eleven_records))
                     (trades Scenario.eleven_records) /\
  memory (Scenario.nth_outcome Scenario.ten_outcomes 10)
    = summarize_if_needed 1010 Scenario.eleven_records /\
  ~ Spec.compaction_keeps_log_order 1010 Scenario.eleven_records.
Proof.
  assert (Hf : Spec.compaction_fires 1010 Scenario.eleven_records)
    by (split; vm_compute; [reflexivity | discriminate]).
  assert (Hold : map oid (trades Scenario.eleven_records) = seq 0 11)
    by (vm_compute; reflexivity).
  assert (Hnew : map oid (trades (summarize_if_needed 1010 Scenario.eleven_records))
                 = seq 1 10 ++ [0%nat])
    by (vm_compute; reflexivity).
  assert (Hsub : ~ Spec.subsequence
                     (trades (summarize_if_needed 1010 Scenario.eleven_records))
                     (trades Scenario.eleven_records)).
  { intro Hsub.
    assert (Hlen : length (trades (summarize_if_needed 1010 Scenario.eleven_records))
                   = length (trades Scenario.eleven_records)).
    { rewrite <- (length_map oid), Hnew.
      rewrite <- (length_map oid (trades Scenario.eleven_records)), Hold.
      reflexivity. }
    pose proof (f_equal (map oid) (subsequence_full _ _ Hsub Hlen)) as E.
    rewrite Hnew, Hold in E. discriminate E. }
  split; [exact Hf |]. split; [exact Hold |]. split; [exact Hnew |].
  split; [vm_compute; reflexivity |]. split; [exact Hsub |].
  split; [reflexivity |].
  intro Hclaim. destruct (Hclaim Hf) as [_ H]. exact (Hsub H).
Qed.

(** The last 10 entries are taken by position, not by age.  After the
    eleventh outcome the log is 1..10 followed by the old best record 0; a
    twelfth outcome, recorded once the cooldown has elapsed, makes the
    compaction fire again on 1..10, 0, 11.  It keeps the entries 3..10, 0,
    11: record 0, the oldest of all, stays as one of the last 10 entries,
    and record 2, more recent than it, is dropped. *)
Lemma last_ten_entries_need_not_be_most_recent :
  map oid (trades (memory (Scenario.nth_outcome Scenario.ten_outcomes 10)))
    = seq 1 10 ++ [0%nat] /\
  Spec.compaction_fires 1130
    (appended_memory (Scenario.nth_outcome Scenario.ten_outcomes 10)
       (new_record 11 1130 USDC_TO_ETH 3000 3030 1)) /\
  map oid (trades (memory Scenario.twelve_outcomes)) = seq 3 8 ++ [0%nat; 11%nat] /\
  map (fun t => timestamp (val t)) (trades (memory Scenario.twelve_outcomes))
    = [1003; 1004; 1005; 1006; 1007; 1008; 1009; 1010; 1000; 1130].
Proof.
  split; [vm_compute; reflexivity |].
  split; [split; vm_compute; [reflexivity | discriminate] |].
  split; vm_compute; reflexivity.
Qed.

(** C7: after a compaction that fires the log has at most 11 records, and
    the record with the highest PnL of the old log (the first one when
    several share it) is still in the log, with its value. *)
Theorem C7_compaction_bound_and_best_kept (now : Q) (m : StrategyMemory) :
  Spec.compaction_fires now m ->
  Spec.same_identity_same_record (trades m) ->
  (length (trades (summarize_if_needed now m)) <= 11)%nat /\
  (forall i b, Spec.first_highest (trades m) i b ->
     In b (trades (summarize_if_needed now m)) /\
     In (val b) (map val (trades (summarize_if_needed now m)))).
Proof.
  intros Hf Hheap.
  rewrite (summarize_trades now m Hf).
  split; [apply kept_trades_length |].
  intros i b Hfirst.
  assert (Hb : In b (trades m))
    by (destruct Hfirst as (Hi & _); apply (nth_error_In _ _ Hi)).
  assert (Hin : In b (kept_trades (trades m))).
  { unfold kept_trades.
    rewrite (max_by_is_first_highest (trades m) i b Hfirst).
    destruct (forallb _ _) eqn:Hall.
    - apply in_or_app. right. left. reflexivity.
    - apply (alias_in_recent (trades m) _ b Hheap); [| exact Hb | exact Hall].
      intros u Hu. unfold Py.slice_last in Hu.
      rewrite <- (firstn_skipn (length (trades m) - 10) (trades m)).
      apply in_or_app. right. exact Hu. }
  split; [exact Hin | apply in_map, Hin].
Qed.

Lemma C7_witness :
  Spec.compaction_fires 1010 Scenario.eleven_records /\
  Spec.same_identity_same_record (trades Scenario.eleven_records) /\
  (length (trades (summarize_if_needed 1010 Scenario.eleven_records)) <= 11)%nat.
Proof.
  assert (Hf : Spec.compaction_fires 1010 Scenario.eleven_records)
    by (split; vm_compute; [reflexivity | discriminate]).
  assert (Hheap : Spec.same_identity_same_record (trades Scenario.eleven_records))
    by (apply distinct_consistent, distinct_objects_check; vm_compute; reflexivity).
  split; [exact Hf |]. split; [exact Hheap |].
  exact (proj1 (C7_compaction_bound_and_best_kept 1010 Scenario.eleven_records
                  Hf Hheap)).
Defined.

(** ** Invariants of the reachable states *)

Lemma summarize_exact (now : Q) (m : StrategyMemory) :
  Spec.metrics_exact m -> Spec.metrics_exact (summarize_if_needed now m).
Proof.
  intro Hex. destruct (fires_dec now m) as [Hf | Hidle].
  - rewrite (summarize_fires now m Hf).
    intro a. unfold set_last_summary_at. cbn [trades success_rates avg_pnl].
    apply update_metrics_exact.
  - rewrite (summarize_idle now m Hidle). exact Hex.
Qed.

Lemma record_memory (s : StatefulSwapStrategy) (o : nat) (stamp now : Q)
    (sd : TradeSide) (entry exit size : Q) :
  memory (record_trade_outcome s o stamp now sd entry exit size) =
    summarize_if_needed now
      (update_metrics
         (set_trades (memory s)
            (trades (memory s) ++
             [mkObj o (mkTradeRecord stamp sd exit size
                         (Spec.outcome_pnl sd entry exit))]))).
Proof.
  unfold record_trade_outcome, Spec.outcome_pnl. cbn [memory set_memory].
  destruct sd; [| | reflexivity];
    (gt_cases entry 0; destruct (Qlt_le_dec 0 entry);
     [reflexivity | lra | lra | reflexivity]).
Qed.

Lemma reachable_metrics_exact (s : StatefulSwapStrategy) :
  reachable s -> Spec.metrics_exact (memory s).
Proof.
  induction 1 as [thr warmup max_kept | s price vol _ IH
                 | s price eth usdc sig _ IH
                 | s o stamp now sd entry exit size _ IH _
                 | s now _ IH].
  - intro a. split; reflexivity.
  - exact IH.
  - rewrite decide_state. exact IH.
  - rewrite record_memory. apply summarize_exact, update_metrics_exact.
  - cbn [memory set_memory]. apply summarize_exact, IH.
Qed.

(** C1: in every reachable state, for every action, the stored success rate
    is the fraction of winning records among the records of that action, the
    stored average is the arithmetic mean of their PnL, both are 0 when no
    record has that action, and the success rate lies in [0, 1]. *)
Theorem C1_aggregates_are_exact_recomputation (s : StatefulSwapStrategy) (a : TradeSide) :
  reachable s ->
  success_rates (memory s) a == Spec.win_fraction a (trades (memory s)) /\
  avg_pnl (memory s) a == Spec.mean_pnl a (trades (memory s)) /\
  (Spec.with_side a (trades (memory s)) = [] ->
   success_rates (memory s) a == 0 /\ avg_pnl (memory s) a == 0) /\
  0 <= success_rates (memory s) a <= 1.
Proof.
  intro Hreach.
  destruct (reachable_metrics_exact s Hreach a) as [Hrate Hmean].
  split; [exact Hrate |]. split; [exact Hmean |]. split.
  - intro Hnone. rewrite Hrate, Hmean.
    unfold Spec.win_fraction, Spec.mean_pnl. rewrite Hnone.
    split; reflexivity.
  - rewrite Hrate. apply win_fraction_bounds.
Qed.

Lemma C1_witness :
  reachable Scenario.after_one_buy /\
  success_rates (memory Scenario.after_one_buy) USDC_TO_ETH
    == Spec.win_fraction USDC_TO_ETH (trades (memory Scenario.after_one_buy)).
Proof.
  assert (Hreach : reachable Scenario.after_one_buy).
  { unfold Scenario.after_one_buy, Scenario.fresh_default.
    apply reach_record; [apply reach_new |].
    unfold fresh. simpl. tauto. }
  split; [exact Hreach |].
  exact (proj1 (C1_aggregates_are_exact_recomputation
                  Scenario.after_one_buy USDC_TO_ETH Hreach)).
Defined.

Lemma summarize_incl (now : Q) (m : StrategyMemory) (t : TradeObj) :
  In t (trades (summarize_if_needed now m)) -> In t (trades m).
Proof.
  destruct (fires_dec now m) as [Hf | Hidle].
  - rewrite (summarize_trades now m Hf). apply kept_trades_incl.
  - rewrite (summarize_idle now m Hidle). trivial.
Qed.

Lemma reachable_hold_flat (s : StatefulSwapStrategy) :
  reachable s -> hold_records_flat (trades (memory s)).
Proof.
  induction 1 as [thr warmup max_kept | s price vol _ IH
                 | s price eth usdc sig _ IH
                 | s o stamp now sd entry exit size _ IH _
                 | s now _ IH].
  - intros t [].
  - exact IH.
  - rewrite decide_state. exact IH.
  - rewrite record_memory. intros t Hin Hside.
    apply summarize_incl in Hin. rewrite update_metrics_trades in Hin.
    cbn [trades set_trades] in Hin.
    apply in_app_or in Hin. destruct Hin as [Hin | [<- | []]].
    + apply IH; assumption.
    + cbn [val side pnl_pct] in *. subst sd. reflexivity.
  - cbn [memory set_memory]. intros t Hin Hside.
    apply summarize_incl in Hin. apply IH; assumption.
Qed.

Lemma flat_no_winner (ts : list TradeObj) :
  hold_records_flat ts -> Spec.winners HOLD ts = [].
Proof.
  unfold Spec.winners. induction ts as [| t ts IH]; intro Hflat; [reflexivity |].
  cbn [filter].
  destruct (TradeSide_eqb (side (val t)) HOLD) eqn:E.
  - apply TradeSide_eqb_eq in E.
    unfold Spec.is_win, Spec.pnl. rewrite (Hflat t (or_introl eq_refl) E).
    cbn [andb]. destruct (Qlt_le_dec 0 0) as [Hlt | _]; [discriminate Hlt |].
    apply IH. intros u Hu. apply Hflat. right. exact Hu.
  - cbn [andb]. apply IH. intros u Hu. apply Hflat. right. exact Hu.
Qed.

Lemma flat_total_zero (ts : list TradeObj) :
  hold_records_flat ts -> Spec.total (map Spec.pnl (Spec.with_side HOLD ts)) == 0.
Proof.
  unfold Spec.with_side. induction ts as [| t ts IH]; intro Hflat; [reflexivity |].
  assert (Hrest : hold_records_flat ts)
    by (intros u Hu; apply Hflat; right; exact Hu).
  cbn [filter].
  destruct (TradeSide_eqb (side (val t)) HOLD) eqn:E.
  - apply TradeSide_eqb_eq in E.
    cbn [map Spec.total fold_right]. unfold Spec.pnl at 1.
    rewrite (Hflat t (or_introl eq_refl) E).
    fold (Spec.total (map Spec.pnl
            (filter (fun t0 => TradeSide_eqb (side (val t0)) HOLD) ts))).
    rewrite (IH Hrest). reflexivity.
  - apply IH, Hrest.
Qed.

(** C10: in every reachable state the records of side HOLD carry a PnL of 0,
    so the success rate and the average PnL stored for HOLD are both 0. *)
Theorem C10_hold_aggregates_stay_zero (s : StatefulSwapStrategy) :
  reachable s ->
  (forall t, In t (trades (memory s)) -> side (val t) = HOLD -> pnl_pct (val t) = 0) /\
  success_rates (memory s) HOLD == 0 /\
  avg_pnl (memory s) HOLD == 0.
Proof.
  intro Hreach.
  pose proof (reachable_hold_flat s Hreach) as Hflat.
  destruct (reachable_metrics_exact s Hreach HOLD) as [Hrate Hmean].
  split; [exact Hflat |]. split.
  - rewrite Hrate. unfold Spec.win_fraction.
    destruct (Spec.with_side HOLD (trades (memory s))); [reflexivity |].
    rewrite (flat_no_winner _ Hflat). unfold Spec.count at 1. simpl length.
    unfold Qdiv. change (inject_Z (Z.of_nat 0)) with 0. ring.
  - rewrite Hmean. unfold Spec.mean_pnl.
    destruct (Spec.with_side HOLD (trades (memory s))) eqn:E; [reflexivity |].
    rewrite <- E, (flat_total_zero _ Hflat). unfold Qdiv. ring.
Qed.

Lemma recent_distinct (k : nat) (ts : list TradeObj) :
  Spec.distinct_objects ts -> Spec.distinct_objects (skipn k ts).
Proof.
  unfold Spec.distinct_objects. intro Hnd.
  rewrite <- skipn_map.
  rewrite <- (firstn_skipn k (map oid ts)) in Hnd.
  exact (NoDup_app_remove_l _ _ Hnd).
Qed.

Lemma kept_trades_distinct (ts : list TradeObj) :
  Spec.distinct_objects ts -> Spec.distinct_objects (kept_trades ts).
Proof.
  intro Hnd. unfold kept_trades, Py.slice_last.
  pose proof (recent_distinct (length ts - 10) ts Hnd) as Hrec.
  destruct (Py.max_by _ ts) as [b |]; [| exact Hrec].
  destruct (forallb _ _) eqn:Hall; [| exact Hrec].
  unfold Spec.distinct_objects in *. rewrite map_app.
  apply NoDup_app; [exact Hrec | repeat constructor; intros [] |].
  intros o Hin [Ho | []].
  apply in_map_iff in Hin. destruct Hin as (t & Ht & Hin).
  rewrite forallb_forall in Hall. specialize (Hall t Hin).
  unfold is_ in Hall. apply negb_true_iff, Nat.eqb_neq in Hall. congruence.
Qed.

Lemma summarize_distinct (now : Q) (m : StrategyMemory) :
  Spec.distinct_objects (trades m) ->
  Spec.distinct_objects (trades (summarize_if_needed now m)).
Proof.
  intro Hnd. destruct (fires_dec now m) as [Hf | Hidle].
  - rewrite (summarize_trades now m Hf). apply kept_trades_distinct, Hnd.
  - rewrite (summarize_idle now m Hidle). exact Hnd.
Qed.

(** The records of a reachable log are pairwise distinct objects. *)
Lemma reachable_distinct (s : StatefulSwapStrategy) :
  reachable s -> Spec.distinct_objects (trades (memory s)).
Proof.
  induction 1 as [thr warmup max_kept | s price vol _ IH
                 | s price eth usdc sig _ IH
                 | s o stamp now sd entry exit size _ IH Hfresh
                 | s now _ IH].
  - constructor.
  - exact IH.
  - rewrite decide_state. exact IH.
  - rewrite record_memory. apply summarize_distinct.
    rewrite update_metrics_trades. cbn [trades set_trades].
    unfold Spec.distinct_objects in *. rewrite map_app.
    apply NoDup_app; [exact IH | repeat constructor; intros [] |].
    intros o' Hin [Ho | []]. cbn [oid] in Ho. subst o'. exact (Hfresh Hin).
  - cbn [memory set_memory]. apply summarize_distinct, IH.
Qed.

(** Both logs on which the program runs a compaction meet the condition on
    identities: the log of a reachable state, and that log with a newly
    built record appended. *)
Lemma reachable_consistent (s : StatefulSwapStrategy) :
  reachable s -> Spec.same_identity_same_record (trades (memory s)).
Proof. intro Hreach. apply distinct_consistent, reachable_distinct, Hreach. Qed.

Lemma appended_consistent (s : StatefulSwapStrategy) (o : nat) (r : TradeRecord) :
  reachable s -> fresh o s ->
  Spec.same_identity_same_record (trades (memory s) ++ [mkObj o r]).
Proof.
  intros Hreach Hfresh. apply distinct_consistent.
  unfold Spec.distinct_objects. rewrite map_app.
  apply NoDup_app;
    [apply reachable_distinct, Hreach | repeat constructor; intros [] |].
  intros o' Hin [Ho | []]. cbn [oid] in Ho. subst o'. exact (Hfresh Hin).
Qed.

(** The newest record is among the last 10, hence kept by a compaction. *)
Lemma newest_kept (ts : list TradeObj) (t : TradeObj) :
  In t (kept_trades (ts ++ [t])).
Proof.
  assert (Hrec : In t (Py.slice_last 10 (ts ++ [t]))).
  { unfold Py.slice_last. rewrite length_app. cbn [length].
    apply (nth_error_In _ (length ts - (length ts + 1 - 10))).
    rewrite nth_error_skipn.
    replace (length ts + 1 - 10 + (length ts - (length ts + 1 - 10)))%nat
      with (length ts) by lia.
    rewrite nth_error_app2 by lia. rewrite Nat.sub_diag. reflexivity. }
  unfold kept_trades.
  destruct (Py.max_by _ (ts ++ [t])) as [b |]; [| exact Hrec].
  destruct (forallb _ _); [| exact Hrec].
  apply in_or_app. left. exact Hrec.
Qed.

Lemma kept_singleton (t : TradeObj) : kept_trades [t] = [t].
Proof.
  unfold kept_trades, Py.slice_last, is_. cbn. rewrite Nat.eqb_refl. reflexivity.
Qed.

(** C8: [record_trade_outcome] appends a record whose PnL is the relative
    gain of the direction taken (0 for a non-positive entry price and for
    HOLD), refreshes the aggregates and runs the compaction, which keeps the
    new record; from a fresh strategy, one buy entered at 3000 and left at
    3100 gives an average PnL of 1/30 and a success rate of 1 for
    USDC_TO_ETH. *)
Theorem C8_record_trade_outcome_appends_pnl
    (s : StatefulSwapStrategy) (o : nat) (stamp now : Q)
    (sd : TradeSide) (entry exit size : Q) :
  let t := mkObj o (mkTradeRecord stamp sd exit size (Spec.outcome_pnl sd entry exit)) in
  let appended := set_trades (memory s) (trades (memory s) ++ [t]) in
  let s' := record_trade_outcome s o stamp now sd entry exit size in
  memory s' = summarize_if_needed now (update_metrics appended) /\
  (~ Spec.compaction_fires now appended -> trades (memory s') = trades (memory s) ++ [t]) /\
  In t (trades (memory s')) /\
  (forall thr warmup max_kept,
      let s1 := record_trade_outcome (new_strategy thr warmup max_kept)
                  o stamp now USDC_TO_ETH 3000 3100 size in
      avg_pnl (memory s1) USDC_TO_ETH == 1 / 30 /\
      success_rates (memory s1) USDC_TO_ETH == 1).
Proof.
  cbv zeta.
  set (t := mkObj o (mkTradeRecord stamp sd exit size (Spec.outcome_pnl sd entry exit))).
  set (appended := set_trades (memory s) (trades (memory s) ++ [t])).
  assert (Hfires_eq : forall m, Spec.compaction_fires now (update_metrics m)
                                <-> Spec.compaction_fires now m).
  { intro m. unfold Spec.compaction_fires.
    destruct (update_metrics_frame m) as (E1 & E2 & E3 & E4).
    rewrite E1, E2, E3, E4. tauto. }
  assert (Htrades : forall m,
             trades (summarize_if_needed now (update_metrics m)) = trades m \/
             trades (summarize_if_needed now (update_metrics m)) = kept_trades (trades m)).
  { intro m. destruct (fires_dec now (update_metrics m)) as [Hf | Hidle].
    - right. rewrite (summarize_trades _ _ Hf), update_metrics_trades. reflexivity.
    - left. rewrite (summarize_idle _ _ Hidle). apply update_metrics_trades. }
  rewrite record_memory. fold t. fold appended.
  split; [reflexivity |]. split; [| split].
  - intro Hidle. rewrite summarize_idle.
    + rewrite update_metrics_trades. reflexivity.
    + rewrite Hfires_eq. exact Hidle.
  - destruct (Htrades appended) as [E | E]; rewrite E; unfold appended;
      cbn [trades set_trades].
    + apply in_or_app. right. left. reflexivity.
    + apply newest_kept.
  - intros thr warmup max_kept. rewrite record_memory.
    set (m1 := set_trades _ _).
    pose proof (summarize_exact now _ (update_metrics_exact m1) USDC_TO_ETH)
      as [Hrate Hmean].
    assert (Hlog : trades (summarize_if_needed now (update_metrics m1))
                   = trades m1).
    { destruct (Htrades m1) as [E | E]; rewrite E; [reflexivity |].
      unfold m1. cbn [trades set_trades new_strategy new_memory memory app].
      apply kept_singleton. }
    rewrite Hlog in Hrate, Hmean. rewrite Hrate, Hmean.
    unfold m1. cbn [trades set_trades new_strategy new_memory memory app].
    split; vm_compute; reflexivity.
Qed.

Lemma C10_witness :
  reachable Scenario.after_one_hold /\
  success_rates (memory Scenario.after_one_hold) HOLD == 0 /\
  avg_pnl (memory Scenario.after_one_hold) HOLD == 0.
Proof.
  assert (Hreach : reachable Scenario.after_one_hold).
  { unfold Scenario.after_one_hold, Scenario.fresh_default.
    apply reach_record; [apply reach_new |].
    unfold fresh. simpl. tauto. }
  split; [exact Hreach |].
  exact (proj2 (C10_hold_aggregates_stay_zero Scenario.after_one_hold Hreach)).
Defined.

(** * Further properties of the strategy and its memory *)

(** ** Recomputation of the aggregates *)

(** X1: the aggregates [update_metrics] stores are a function of the log
    alone: the values held before play no part, so two memories with the same
    log get the same aggregates and running it twice changes nothing. *)
Theorem update_metrics_depends_only_on_log (m1 m2 : StrategyMemory) (a : TradeSide) :
  trades m1 = trades m2 ->
  success_rates (update_metrics m1) a = success_rates (update_metrics m2) a /\
  avg_pnl (update_metrics m1) a = avg_pnl (update_metrics m2) a /\
  success_rates (update_metrics (update_metrics m1)) a
    = success_rates (update_metrics m1) a /\
  avg_pnl (update_metrics (update_metrics m1)) a = avg_pnl (update_metrics m1) a.
Proof.
  intro Hlog.
  destruct (update_metrics_entries m1 a) as [R1 A1].
  destruct (update_metrics_entries m2 a) as [R2 A2].
  destruct (update_metrics_entries (update_metrics m1) a) as [R3 A3].
  rewrite R3, A3, update_metrics_trades, R1, A1, R2, A2, Hlog.
  repeat split.
Qed.

Lemma update_metrics_depends_only_on_log_witness :
  trades (memory Scenario.after_one_buy)
    = trades (set_metrics (memory Scenario.after_one_buy) USDC_TO_ETH 7 7) /\
  success_rates (update_metrics (memory Scenario.after_one_buy)) USDC_TO_ETH
    = success_rates
        (update_metrics (set_metrics (memory Scenario.after_one_buy) USDC_TO_ETH 7 7))
        USDC_TO_ETH.
Proof.
  split; [reflexivity |].
  apply (update_metrics_depends_only_on_log
           (memory Scenario.after_one_buy)
           (set_metrics (memory Scenario.after_one_buy) USDC_TO_ETH 7 7)
           USDC_TO_ETH).
  reflexivity.
Defined.

(** ** Compaction: size, rate limit and bound *)

Lemma appended_memory_frame (s : StatefulSwapStrategy) (t : TradeObj) :
  trades (appended_memory s t) = trades (memory s) ++ [t] /\
  max_trades_kept (appended_memory s t) = max_trades_kept (memory s) /\
  last_summary_at (appended_memory s t) = last_summary_at (memory s) /\
  summary_cooldown_sec (appended_memory s t) = summary_cooldown_sec (memory s).
Proof.
  unfold appended_memory.
  destruct (update_metrics_frame
              (set_trades (memory s) (trades (memory s) ++ [t])))
    as (E1 & E2 & E3 & E4).
  rewrite E1, E2, E3, E4. repeat split.
Qed.

Lemma record_as_compaction (s : StatefulSwapStrategy) (o : nat) (stamp now : Q)
    (sd : TradeSide) (entry exit size : Q) :
  memory (record_trade_outcome s o stamp now sd entry exit size) =
    summarize_if_needed now
      (appended_memory s (new_record o stamp sd entry exit size)).
Proof. apply record_memory. Qed.

Lemma summarize_fires_frame (now : Q) (m : StrategyMemory) :
  Spec.compaction_fires now m ->
  last_summary_at (summarize_if_needed now m) = now /\
  max_trades_kept (summarize_if_needed now m) = max_trades_kept m /\
  summary_cooldown_sec (summarize_if_needed now m) = summary_cooldown_sec m.
Proof.
  intro Hf. rewrite (summarize_fires now m Hf).
  unfold set_last_summary_at.
  cbn [last_summary_at max_trades_kept summary_cooldown_sec].
  destruct (update_metrics_frame (set_trades m (kept_trades (trades m))))
    as (_ & E2 & _ & E4).
  rewrite E2, E4. repeat split.
Qed.

(** X2: the number of records a firing compaction leaves is the smaller of
    the log length and 10, plus one when the best record is older than the
    last 10. *)
Theorem compaction_size (now : Q) (m : StrategyMemory) (i : nat) (b : TradeObj) :
  Spec.compaction_fires now m ->
  Spec.distinct_objects (trades m) ->
  Spec.first_highest (trades m) i b ->
  length (trades (summarize_if_needed now m)) =
    (Nat.min (length (trades m)) 10
     + (if (i <? length (trades m) - 10)%nat then 1 else 0))%nat.
Proof.
  intros Hf Hnd Hfirst. rewrite (summarize_trades now m Hf).
  rewrite (kept_trades_shape (trades m) i b Hnd
             (max_by_is_first_highest (trades m) i b Hfirst) (proj1 Hfirst)).
  rewrite length_app, length_skipn.
  destruct (i <? length (trades m) - 10)%nat; cbn [length]; lia.
Qed.

(** A checker for "first record with the highest PnL at position 0", to
    settle concrete logs by evaluation. *)
Lemma first_highest_head_check (b : TradeObj) (ts : list TradeObj) :
  forallb (fun t => Qle_bool (Spec.pnl t) (Spec.pnl b)) ts = true ->
  Spec.first_highest (b :: ts) 0 b.
Proof.
  intro Hall. rewrite forallb_forall in Hall.
  split; [reflexivity |]. split.
  - intros t [<- | Ht]; [apply Qle_refl |].
    apply Qle_bool_iff, Hall, Ht.
  - intros j t Hj. lia.
Qed.

Lemma eleven_records_best :
  Spec.first_highest (trades Scenario.eleven_records) 0
    (mkObj 0 (mkTradeRecord 1000 USDC_TO_ETH 3300 1 ((3300 - 3000) / 3000))).
Proof.
  assert (Hlog : trades Scenario.eleven_records =
                 mkObj 0 (mkTradeRecord 1000 USDC_TO_ETH 3300 1 ((3300 - 3000) / 3000))
                 :: tl (trades Scenario.eleven_records))
    by (vm_compute; reflexivity).
  rewrite Hlog at 1.
  apply first_highest_head_check. vm_compute. reflexivity.
Defined.

Lemma compaction_size_witness :
  Spec.compaction_fires 1010 Scenario.eleven_records /\
  Spec.distinct_objects (trades Scenario.eleven_records) /\
  length (trades (summarize_if_needed 1010 Scenario.eleven_records)) =
    (Nat.min (length (trades Scenario.eleven_records)) 10
     + (if (0 <? length (trades Scenario.eleven_records) - 10)%nat then 1 else 0))%nat.
Proof.
  assert (Hf : Spec.compaction_fires 1010 Scenario.eleven_records)
    by (split; vm_compute; [reflexivity | discriminate]).
  assert (Hnd : Spec.distinct_objects (trades Scenario.eleven_records))
    by (apply distinct_objects_check; vm_compute; reflexivity).
  split; [exact Hf |]. split; [exact Hnd |].
  exact (compaction_size 1010 Scenario.eleven_records 0 _ Hf Hnd eleven_records_best).
Defined.

(** X3: the cooldown makes the bound soft.  When the compaction of one call
    of [record_trade_outcome] fires at time [now1], a second call whose clock
    reading is less than the cooldown later only appends: the log grows by
    one record and the time of the last compaction stays [now1], however
    long the log is. *)
Theorem cooldown_blocks_next_compaction
    (s : StatefulSwapStrategy)
    (o1 : nat) (stamp1 now1 : Q) (sd1 : TradeSide) (entry1 exit1 size1 : Q)
    (o2 : nat) (stamp2 now2 : Q) (sd2 : TradeSide) (entry2 exit2 size2 : Q) :
  let s1 := record_trade_outcome s o1 stamp1 now1 sd1 entry1 exit1 size1 in
  let s2 := record_trade_outcome s1 o2 stamp2 now2 sd2 entry2 exit2 size2 in
  Spec.compaction_fires now1
    (appended_memory s (new_record o1 stamp1 sd1 entry1 exit1 size1)) ->
  now2 - now1 < inject_Z (summary_cooldown_sec (memory s)) ->
  last_summary_at (memory s1) = now1 /\
  trades (memory s2) =
    trades (memory s1) ++ [new_record o2 stamp2 sd2 entry2 exit2 size2] /\
  last_summary_at (memory s2) = now1.
Proof.
  cbv zeta. intros Hf Hsoon.
  set (s1 := record_trade_outcome s o1 stamp1 now1 sd1 entry1 exit1 size1).
  destruct (summarize_fires_frame now1 _ Hf) as (Hlast & _ & Hcool).
  destruct (appended_memory_frame s (new_record o1 stamp1 sd1 entry1 exit1 size1))
    as (_ & _ & _ & Hcool0).
  assert (Hlast1 : last_summary_at (memory s1) = now1).
  { unfold s1. rewrite record_as_compaction. exact Hlast. }
  assert (Hcool1 : summary_cooldown_sec (memory s1) = summary_cooldown_sec (memory s)).
  { unfold s1. rewrite record_as_compaction, Hcool. exact Hcool0. }
  destruct (appended_memory_frame s1 (new_record o2 stamp2 sd2 entry2 exit2 size2))
    as (T2 & _ & L2 & K2).
  assert (Hidle : ~ Spec.compaction_fires now2
                      (appended_memory s1 (new_record o2 stamp2 sd2 entry2 exit2 size2))).
  { intros [_ Helapsed]. rewrite L2, K2, Hlast1, Hcool1 in Helapsed.
    apply (Qlt_not_le _ _ Hsoon Helapsed). }
  split; [exact Hlast1 |].
  rewrite record_as_compaction, (summarize_idle _ _ Hidle), T2, L2.
  split; [reflexivity | exact Hlast1].
Qed.

Lemma cooldown_blocks_next_compaction_witness :
  Spec.compaction_fires 1010
    (appended_memory Scenario.ten_outcomes
       (new_record 10 1010 USDC_TO_ETH 3000 3030 1)) /\
  1011 - 1010 < inject_Z (summary_cooldown_sec (memory Scenario.ten_outcomes)) /\
  last_summary_at
    (memory (record_trade_outcome Scenario.ten_outcomes
               10 1010 1010 USDC_TO_ETH 3000 3030 1)) = 1010.
Proof.
  assert (Hf : Spec.compaction_fires 1010
                 (appended_memory Scenario.ten_outcomes
                    (new_record 10 1010 USDC_TO_ETH 3000 3030 1)))
    by (split; vm_compute; [reflexivity | discriminate]).
  assert (Hsoon : 1011 - 1010
                  < inject_Z (summary_cooldown_sec (memory Scenario.ten_outcomes)))
    by (vm_compute; reflexivity).
  split; [exact Hf |]. split; [exact Hsoon |].
  exact (proj1 (cooldown_blocks_next_compaction Scenario.ten_outcomes
                  10 1010 1010 USDC_TO_ETH 3000 3030 1
                  11 1011 1011 USDC_TO_ETH 3000 3030 1 Hf Hsoon)).
Defined.

(** X4: when the cooldown has elapsed at a call of [record_trade_outcome],
    the log it leaves has at most [max(max_trades_kept, 11)] records. *)
Theorem log_bounded_when_cooldown_elapsed
    (s : StatefulSwapStrategy) (o : nat) (stamp now : Q)
    (sd : TradeSide) (entry exit size : Q) :
  inject_Z (summary_cooldown_sec (memory s)) <= now - last_summary_at (memory s) ->
  (Z.of_nat (length (trades (memory
      (record_trade_outcome s o stamp now sd entry exit size))))
   <= Z.max (max_trades_kept (memory s)) 11)%Z.
Proof.
  intro Helapsed. rewrite record_as_compaction.
  set (m := appended_memory s (new_record o stamp sd entry exit size)).
  destruct (appended_memory_frame s (new_record o stamp sd entry exit size))
    as (_ & Hmax & Hlast & Hcool). fold m in Hmax, Hlast, Hcool.
  destruct (fires_dec now m) as [Hf | Hidle].
  - rewrite (summarize_trades now m Hf).
    pose proof (kept_trades_length (trades m)). lia.
  - rewrite (summarize_idle now m Hidle).
    destruct (Z_gt_dec (Z.of_nat (length (trades m))) (max_trades_kept m))
      as [Hlong | Hshort].
    + exfalso. apply Hidle. split; [exact Hlong |].
      rewrite Hcool, Hlast. exact Helapsed.
    + rewrite Hmax in Hshort. lia.
Qed.

Lemma log_bounded_when_cooldown_elapsed_witness :
  inject_Z (summary_cooldown_sec (memory Scenario.ten_outcomes))
    <= 1010 - last_summary_at (memory Scenario.ten_outcomes) /\
  (Z.of_nat (length (trades (memory
      (record_trade_outcome Scenario.ten_outcomes 10 1010 1010 USDC_TO_ETH 3000 3030 1))))
   <= Z.max (max_trades_kept (memory Scenario.ten_outcomes)) 11)%Z.
Proof.
  assert (Helapsed : inject_Z (summary_cooldown_sec (memory Scenario.ten_outcomes))
                     <= 1010 - last_summary_at (memory Scenario.ten_outcomes))
    by (vm_compute; discriminate).
  split; [exact Helapsed |].
  exact (log_bounded_when_cooldown_elapsed Scenario.ten_outcomes
           10 1010 1010 USDC_TO_ETH 3000 3030 1 Helapsed).
Defined.

(** X5: no record object occurs twice in the log of a reachable state: the
    identity test of the compaction keeps the best record from being added
    when it is already among the recent ones. *)
Theorem reachable_log_has_no_duplicate (s : StatefulSwapStrategy) :
  reachable s -> NoDup (map oid (trades (memory s))).
Proof. intro Hreach. exact (reachable_distinct s Hreach). Qed.

Lemma reachable_log_has_no_duplicate_witness :
  reachable Scenario.after_one_buy /\
  NoDup (map oid (trades (memory Scenario.after_one_buy))).
Proof.
  assert (Hreach : reachable Scenario.after_one_buy).
  { unfold Scenario.after_one_buy, Scenario.fresh_default.
    apply reach_record; [apply reach_new |].
    unfold fresh. simpl. tauto. }
  split; [exact Hreach |].
  exact (reachable_log_has_no_duplicate Scenario.after_one_buy Hreach).
Defined.

(** ** Configuration and warmup across calls *)

Lemma summarize_config (now : Q) (m : StrategyMemory) :
  max_trades_kept (summarize_if_needed now m) = max_trades_kept m /\
  summary_cooldown_sec (summarize_if_needed now m) = summary_cooldown_sec m.
Proof.
  destruct (fires_dec now m) as [Hf | Hidle].
  - destruct (summarize_fires_frame now m Hf) as (_ & E1 & E2). split; assumption.
  - rewrite (summarize_idle now m Hidle). split; reflexivity.
Qed.

Lemma call_config (s : StatefulSwapStrategy) (c : Call) :
  rebalance_threshold (call s c) = rebalance_threshold s /\
  observe_cycles_before_trade (call s c) = observe_cycles_before_trade s /\
  max_trades_kept (memory (call s c)) = max_trades_kept (memory s) /\
  summary_cooldown_sec (memory (call s c)) = summary_cooldown_sec (memory s).
Proof.
  destruct c as [p vol | p eth usdc sig | o stamp now sd entry exit size | now];
    cbn [call].
  - repeat split.
  - rewrite decide_state. repeat split.
  - split; [reflexivity |]. split; [reflexivity |].
    rewrite record_as_compaction.
    destruct (summarize_config now
                (appended_memory s (new_record o stamp sd entry exit size)))
      as [E1 E2].
    destruct (appended_memory_frame s (new_record o stamp sd entry exit size))
      as (_ & F1 & _ & F2).
    rewrite E1, E2, F1, F2. split; reflexivity.
  - split; [reflexivity |]. split; [reflexivity |].
    cbn [memory set_memory]. apply summarize_config.
Qed.

Lemma calls_config (cs : list Call) (s : StatefulSwapStrategy) :
  rebalance_threshold (calls s cs) = rebalance_threshold s /\
  observe_cycles_before_trade (calls s cs) = observe_cycles_before_trade s /\
  max_trades_kept (memory (calls s cs)) = max_trades_kept (memory s) /\
  summary_cooldown_sec (memory (calls s cs)) = summary_cooldown_sec (memory s).
Proof.
  unfold calls. revert s. induction cs as [| c cs IH]; intro s; cbn [fold_left].
  - repeat split.
  - destruct (IH (call s c)) as (A1 & A2 & A3 & A4).
    destruct (call_config s c) as (B1 & B2 & B3 & B4).
    rewrite A1, A2, A3, A4, B1, B2, B3, B4. repeat split.
Qed.

(** X6: no sequence of calls changes the configuration: the rebalance
    threshold, the warmup target, [max_trades_kept] and the compaction
    cooldown keep the values they had. *)
Theorem configuration_is_never_changed (cs : list Call) (s : StatefulSwapStrategy) :
  rebalance_threshold (calls s cs) = rebalance_threshold s /\
  observe_cycles_before_trade (calls s cs) = observe_cycles_before_trade s /\
  max_trades_kept (memory (calls s cs)) = max_trades_kept (memory s) /\
  summary_cooldown_sec (memory (calls s cs)) = summary_cooldown_sec (memory s).
Proof. exact (calls_config cs s). Qed.

Lemma call_counter (s : StatefulSwapStrategy) (c : Call) :
  observed_cycles (call s c) =
    (observed_cycles s + (if is_observe c then 1 else 0))%Z.
Proof.
  destruct c as [p vol | p eth usdc sig | o stamp now sd entry exit size | now];
    cbn [call is_observe].
  - reflexivity.
  - rewrite decide_state. cbn [observed_cycles set_last_price]. lia.
  - cbn [record_trade_outcome observed_cycles set_memory]. lia.
  - cbn [observed_cycles set_memory]. lia.
Qed.

Lemma calls_counter (cs : list Call) (s : StatefulSwapStrategy) :
  observed_cycles (calls s cs) =
    (observed_cycles s + Z.of_nat (length (filter is_observe cs)))%Z.
Proof.
  unfold calls. revert s.
  induction cs as [| c cs IH]; intro s; cbn [fold_left filter].
  - simpl. lia.
  - rewrite IH, call_counter. destruct (is_observe c); cbn [length]; lia.
Qed.

(** X7: the warmup counter counts the calls of [observe] and nothing else:
    after any sequence of calls it has grown by the number of [observe]
    calls in the sequence, so it never decreases. *)
Theorem warmup_counter_counts_observe_calls
    (cs : list Call) (s : StatefulSwapStrategy) :
  observed_cycles (calls s cs) =
    (observed_cycles s + Z.of_nat (length (filter is_observe cs)))%Z /\
  (observed_cycles s <= observed_cycles (calls s cs))%Z.
Proof.
  split; [apply calls_counter |]. rewrite calls_counter. lia.
Qed.

(** X8: a strategy in warmup leaves it only through [observe]: after a
    sequence of calls with fewer [observe] calls than the counter still
    lacks, [decide] returns HOLD. *)
Theorem warmup_ends_only_by_observing
    (cs : list Call) (s : StatefulSwapStrategy) (price eth usdc : Q) (sig : option Q) :
  (observed_cycles s + Z.of_nat (length (filter is_observe cs))
     < observe_cycles_before_trade s)%Z ->
  fst (decide (calls s cs) price eth usdc sig) = HOLD.
Proof.
  intro Hfew. unfold decide.
  destruct (calls_config cs s) as (_ & Htarget & _).
  rewrite Htarget, calls_counter.
  apply Z.ltb_lt in Hfew. rewrite Hfew. reflexivity.
Qed.

Lemma warmup_ends_only_by_observing_witness :
  (observed_cycles (new_strategy 0 2 100)
   + Z.of_nat (length (filter is_observe
        [CallObserve 3000 None; CallDecide 3010 1 3000 None;
         CallRecord 0 1000 1000 USDC_TO_ETH 3000 3100 1]))
   < observe_cycles_before_trade (new_strategy 0 2 100))%Z /\
  fst (decide (calls (new_strategy 0 2 100)
                 [CallObserve 3000 None; CallDecide 3010 1 3000 None;
                  CallRecord 0 1000 1000 USDC_TO_ETH 3000 3100 1])
         3100 1 3000 (Some 0.02)) = HOLD.
Proof.
  split.
  - reflexivity.
  - apply (warmup_ends_only_by_observing
             [CallObserve 3000 None; CallDecide 3010 1 3000 None;
              CallRecord 0 1000 1000 USDC_TO_ETH 3000 3100 1]
             (new_strategy 0 2 100)).
    reflexivity.
Defined.

(** X9: once the counter has reached the warmup target no sequence of calls
    brings the strategy back into warmup. *)
Theorem warmup_is_never_reentered (cs : list Call) (s : StatefulSwapStrategy) :
  (observe_cycles_before_trade s <= observed_cycles s)%Z ->
  (observe_cycles_before_trade (calls s cs) <= observed_cycles (calls s cs))%Z.
Proof.
  intro Hactive.
  destruct (calls_config cs s) as (_ & Htarget & _).
  rewrite Htarget, calls_counter. lia.
Qed.

Lemma warmup_is_never_reentered_witness :
  (observe_cycles_before_trade Scenario.fresh_default
     <= observed_cycles Scenario.fresh_default)%Z /\
  (observe_cycles_before_trade
     (calls Scenario.fresh_default [CallDecide 3010 1 3000 None])
   <= observed_cycles
        (calls Scenario.fresh_default [CallDecide 3010 1 3000 None]))%Z.
Proof.
  assert (Hactive : (observe_cycles_before_trade Scenario.fresh_default
                       <= observed_cycles Scenario.fresh_default)%Z)
    by (vm_compute; discriminate).
  split; [exact Hactive |].
  exact (warmup_is_never_reentered [CallDecide 3010 1 3000 None]
           Scenario.fresh_default Hactive).
Defined.

(** ** Market signal and decisions *)

Lemma relative_change_sign (price last : Q) :
  0 < last ->
  (0 < (price - last) / last <-> last < price) /\
  ((price - last) / last < 0 <-> price < last).
Proof.
  intro Hpos.
  assert (Hmul : (price - last) / last * last == price - last).
  { field. intro E. rewrite E in Hpos. discriminate. }
  set (r := (price - last) / last) in *.
  split; split; intro H; nra.
Qed.

Lemma clamp_sign (x : Q) :
  (0 < Spec.clamp (-0.02) 0.02 x <-> 0 < x) /\
  (Spec.clamp (-0.02) 0.02 x < 0 <-> x < 0).
Proof.
  unfold Spec.clamp.
  assert (Hlo : -0.02 < 0) by reflexivity.
  assert (Hhi : 0 < 0.02) by reflexivity.
  destruct (Qlt_le_dec x (-0.02)); [split; split; intro; lra |].
  destruct (Qlt_le_dec 0.02 x); split; split; intro; lra.
Qed.

Lemma market_signal_value (s : StatefulSwapStrategy) (price last : Q) :
  _last_price s = Some last ->
  _market_signal s price =
    Spec.clamp (-0.02) 0.02 (if Py.gtb last 0 then (price - last) / last else 0).
Proof.
  intro Hlast. unfold _market_signal. rewrite Hlast. cbv zeta.
  apply min_max_clamp. vm_compute. discriminate.
Qed.

(** X10: with a positive last seen price the market signal has the sign of
    the price move: positive exactly when the price rose, negative exactly
    when it fell; with a last seen price that is not positive it is 0. *)
Theorem market_signal_sign (s : StatefulSwapStrategy) (price last : Q) :
  _last_price s = Some last ->
  (0 < last ->
     (0 < _market_signal s price <-> last < price) /\
     (_market_signal s price < 0 <-> price < last)) /\
  (last <= 0 -> _market_signal s price = 0).
Proof.
  intro Hlast. rewrite (market_signal_value s price last Hlast).
  split.
  - intro Hpos. apply gtb_true in Hpos. rewrite Hpos.
    apply gtb_true in Hpos.
    destruct (clamp_sign ((price - last) / last)) as [Hp Hn].
    destruct (relative_change_sign price last Hpos) as [Hp' Hn'].
    rewrite Hp, Hn. split; assumption.
  - intro Hneg. apply gtb_false in Hneg. rewrite Hneg. reflexivity.
Qed.

Lemma market_signal_sign_witness :
  _last_price Scenario.saw_3000 = Some 3000 /\
  0 < 3000 /\
  (0 < _market_signal Scenario.saw_3000 3001 <-> 3000 < 3001).
Proof.
  split; [reflexivity |]. split; [reflexivity |].
  apply (proj1 (market_signal_sign Scenario.saw_3000 3001 3000 eq_refl)).
  reflexivity.
Defined.

(** X11: a strategy without a last seen price and with equal average PnL for
    both trade sides, a fresh one in particular, answers HOLD when no
    override signal is given, whatever the threshold, the price and the
    balances are. *)
Theorem no_signal_no_history_holds
    (s : StatefulSwapStrategy) (price eth usdc : Q) :
  _last_price s = None ->
  avg_pnl (memory s) USDC_TO_ETH == avg_pnl (memory s) ETH_TO_USDC ->
  fst (decide s price eth usdc None) = HOLD.
Proof.
  intros Hlast Havg.
  destruct (Z.ltb_spec (observed_cycles s) (observe_cycles_before_trade s))
    as [Hwarm | Hactive].
  - unfold decide. apply Z.ltb_lt in Hwarm. rewrite Hwarm. reflexivity.
  - rewrite (decide_active s price eth usdc None Hactive). cbv zeta.
    unfold buy_score, sell_score, market_bias, _market_signal. rewrite Hlast.
    set (buy := avg_pnl (memory s) USDC_TO_ETH + 0).
    set (sell := avg_pnl (memory s) ETH_TO_USDC - 0).
    assert (Htie : buy == sell) by (unfold buy, sell; rewrite Havg; ring).
    destruct (Py.leb (rebalance_threshold s) 0) eqn:Hthr.
    + gt_cases buy sell; [lra |]. gt_cases sell buy; [lra |]. reflexivity.
    + apply leb_false in Hthr. unfold Py.abs.
      cmp_cases (Qabs (buy - sell)) (rebalance_threshold s); [reflexivity |].
      exfalso.
      assert (Hzero : Qabs (buy - sell) == 0).
      { rewrite Htie. setoid_replace (sell - sell) with 0 by ring. reflexivity. }
      rewrite Hzero in Hcmp. lra.
Qed.

Lemma no_signal_no_history_holds_witness :
  _last_price (new_strategy 0.01 0 100) = None /\
  avg_pnl (memory (new_strategy 0.01 0 100)) USDC_TO_ETH
    == avg_pnl (memory (new_strategy 0.01 0 100)) ETH_TO_USDC /\
  fst (decide (new_strategy 0.01 0 100) 3000 1 3000 None) = HOLD.
Proof.
  split; [reflexivity |]. split; [reflexivity |].
  apply (no_signal_no_history_holds (new_strategy 0.01 0 100) 3000 1 3000);
    reflexivity.
Defined.

(** X12: with warmup complete, no threshold, equal average PnL on both trade
    sides and a positive last seen price, the decision follows the price
    move: buy ETH exactly when the price rose and USDC is held, sell ETH
    exactly when it fell and ETH is held. *)
Theorem equal_history_follows_price_move
    (s : StatefulSwapStrategy) (price last eth usdc : Q) :
  (observe_cycles_before_trade s <= observed_cycles s)%Z ->
  rebalance_threshold s <= 0 ->
  _last_price s = Some last ->
  0 < last ->
  avg_pnl (memory s) USDC_TO_ETH == avg_pnl (memory s) ETH_TO_USDC ->
  (fst (decide s price eth usdc None) = USDC_TO_ETH <-> last < price /\ 0 < usdc) /\
  (fst (decide s price eth usdc None) = ETH_TO_USDC <-> price < last /\ 0 < eth).
Proof.
  intros Hactive Hthr Hlast Hpos Havg.
  rewrite (decide_active s price eth usdc None Hactive). cbv zeta.
  apply leb_true in Hthr. rewrite Hthr.
  unfold buy_score, sell_score, market_bias.
  rewrite (market_signal_value s price last Hlast).
  apply gtb_true in Hpos. rewrite Hpos. apply gtb_true in Hpos.
  destruct (clamp_sign ((price - last) / last)) as [Hp Hn].
  destruct (relative_change_sign price last Hpos) as [Hp' Hn'].
  set (sig := Spec.clamp (-0.02) 0.02 ((price - last) / last)) in *.
  set (ab := avg_pnl (memory s) USDC_TO_ETH) in *.
  set (asl := avg_pnl (memory s) ETH_TO_USDC) in *.
  assert (Hup : asl - sig < ab + sig <-> last < price).
  { rewrite <- Hp', <- Hp. split; intro; lra. }
  assert (Hdown : ab + sig < asl - sig <-> price < last).
  { rewrite <- Hn', <- Hn. split; intro; lra. }
  gt_cases (ab + sig) (asl - sig); gt_cases usdc 0;
    gt_cases (asl - sig) (ab + sig); gt_cases eth 0; cbn [andb];
    repeat split; intros; try discriminate; try reflexivity;
    try (exfalso; intuition lra); intuition lra.
Qed.

Lemma equal_history_follows_price_move_witness :
  (observe_cycles_before_trade Scenario.saw_3000
     <= observed_cycles Scenario.saw_3000)%Z /\
  rebalance_threshold Scenario.saw_3000 <= 0 /\
  _last_price Scenario.saw_3000 = Some 3000 /\
  0 < 3000 /\
  avg_pnl (memory Scenario.saw_3000) USDC_TO_ETH
    == avg_pnl (memory Scenario.saw_3000) ETH_TO_USDC /\
  (fst (decide Scenario.saw_3000 3100 1 3000 None) = USDC_TO_ETH
   <-> 3000 < 3100 /\ 0 < 3000).
Proof.
  split; [vm_compute; discriminate |].
  split; [vm_compute; discriminate |].
  split; [reflexivity |]. split; [reflexivity |]. split; [reflexivity |].
  apply (equal_history_follows_price_move Scenario.saw_3000 3100 3000 1 3000);
    try reflexivity; vm_compute; discriminate.
Defined.

(** X13: with an override signal the decision does not depend on the price
    argument nor on the last seen price: two strategies that differ in the
    last seen price only, asked at different prices with the same override
    signal, answer the same. *)
Theorem override_signal_ignores_prices
    (s : StatefulSwapStrategy) (price1 price2 eth usdc sig : Q) (last : option Q) :
  let s' := mkStrategy (memory s) (rebalance_threshold s)
              (observe_cycles_before_trade s) (observed_cycles s) last in
  fst (decide s price1 eth usdc (Some sig)) = fst (decide s' price2 eth usdc (Some sig)).
Proof.
  cbv zeta.
  unfold decide. cbn [observed_cycles observe_cycles_before_trade memory
                      rebalance_threshold].
  destruct (observed_cycles s <? observe_cycles_before_trade s)%Z; [reflexivity |].
  destruct (Py.leb (rebalance_threshold s) 0).
  - destruct (Py.gtb _ _ && Py.gtb usdc 0); [reflexivity |].
    destruct (Py.gtb _ _ && Py.gtb eth 0); reflexivity.
  - destruct (Py.ltb _ _); reflexivity.
Qed.

(** X14: [observe] makes its price the reference of the market signal, so
    the signal for that same price is 0 and a decision taken right after at
    that price compares the two average PnL values alone. *)
Theorem observe_resets_market_signal
    (s : StatefulSwapStrategy) (price : Q) (vol : option Q) :
  _market_signal (observe s price vol) price == 0 /\
  buy_score (observe s price vol) price None == avg_pnl (memory s) USDC_TO_ETH /\
  sell_score (observe s price vol) price None == avg_pnl (memory s) ETH_TO_USDC.
Proof.
  assert (Hzero : _market_signal (observe s price vol) price == 0).
  { rewrite (market_signal_value (observe s price vol) price price eq_refl).
    gt_cases price 0.
    - assert (Hrel : (price - price) / price == 0).
      { field. intro E. rewrite E in Hcmp. discriminate. }
      unfold Spec.clamp.
      destruct (Qlt_le_dec ((price - price) / price) (-0.02)) as [H | H];
        [rewrite Hrel in H; discriminate H |].
      destruct (Qlt_le_dec 0.02 ((price - price) / price)) as [H' | H'];
        [rewrite Hrel in H'; discriminate H' | exact Hrel].
    - reflexivity. }
  split; [exact Hzero |].
  unfold buy_score, sell_score, market_bias. cbn [memory observe].
  rewrite Hzero. split; ring.
Qed.

(** ** Recorded outcomes *)

(** X15: the record [record_trade_outcome] adds to the log counts as a win
    exactly when the position gained: a buy entered at a positive price below
    the exit price, or a sell entered at a positive price above it.  A HOLD
    record and a record with an entry price that is not positive never
    count. *)
Theorem recorded_outcome_wins_iff_price_moved_favourably
    (s : StatefulSwapStrategy) (o : nat) (stamp now : Q)
    (sd : TradeSide) (entry exit size : Q) :
  let t := new_record o stamp sd entry exit size in
  In t (trades (memory (record_trade_outcome s o stamp now sd entry exit size))) /\
  (0 < pnl_pct (val t) <->
     (sd = USDC_TO_ETH /\ 0 < entry /\ entry < exit) \/
     (sd = ETH_TO_USDC /\ 0 < entry /\ exit < entry)).
Proof.
  cbv zeta. split.
  - rewrite record_as_compaction.
    set (t := new_record o stamp sd entry exit size).
    destruct (fires_dec now (appended_memory s t)) as [Hf | Hidle].
    + rewrite (summarize_trades _ _ Hf).
      rewrite (proj1 (appended_memory_frame s t)). apply newest_kept.
    + rewrite (summarize_idle _ _ Hidle).
      rewrite (proj1 (appended_memory_frame s t)).
      apply in_or_app. right. left. reflexivity.
  - unfold new_record, Spec.outcome_pnl. cbn [val pnl_pct].
    destruct sd.
    + destruct (Qlt_le_dec 0 entry) as [Hpos | Hneg].
      * assert (Hmul : (entry - exit) / entry * entry == entry - exit).
        { field. intro E. rewrite E in Hpos. discriminate. }
        set (r := (entry - exit) / entry) in *.
        split.
        -- intro Hwin. right. repeat split; [exact Hpos | nra].
        -- intros [[Hsd _] | (_ & _ & Hlt)]; [discriminate Hsd | nra].
      * split.
        -- intro Hwin. discriminate Hwin.
        -- intros [[Hsd _] | (_ & Hpos & _)]; [discriminate Hsd | lra].
    + destruct (Qlt_le_dec 0 entry) as [Hpos | Hneg].
      * assert (Hmul : (exit - entry) / entry * entry == exit - entry).
        { field. intro E. rewrite E in Hpos. discriminate. }
        set (r := (exit - entry) / entry) in *.
        split.
        -- intro Hwin. left. repeat split; [exact Hpos | nra].
        -- intros [(_ & _ & Hlt) | [Hsd _]]; [nra | discriminate Hsd].
      * split.
        -- intro Hwin. discriminate Hwin.
        -- intros [(_ & Hpos & _) | [Hsd _]]; [lra | discriminate Hsd].
    + split.
      * intro Hwin. discriminate Hwin.
      * intros [[Hsd _] | [Hsd _]]; discriminate Hsd.
Qed.

(** * Properties of the runner *)

(** ** One iteration of the loop *)

Lemma price_stub_range (d : Q) :
  -30 <= d <= 30 ->
  2970 <= Runner.get_eth_price_stub d <= 3030.
Proof. unfold Runner.get_eth_price_stub. intros [H1 H2]. split; lra. Qed.

(** X18: the loop trades only with funds.  A decision to buy with no USDC or
    to sell with no ETH, which [decide] can return when a threshold is set,
    and a decision to hold all leave both balances as they were; a funded buy
    leaves no USDC and a funded sell no ETH. *)
Theorem iteration_trades_only_with_funds (args : Runner.Args) (i : Z)
    (tk : Runner.Tick) (r : Runner.Run) :
  let sd := fst (Runner.iteration args i tk r) in
  let r' := snd (Runner.iteration args i tk r) in
  ((sd = HOLD \/ (sd = USDC_TO_ETH /\ Runner.portfolio_usdc r <= 0)
    \/ (sd = ETH_TO_USDC /\ Runner.portfolio_eth r <= 0)) ->
   Runner.portfolio_eth r' = Runner.portfolio_eth r /\
   Runner.portfolio_usdc r' = Runner.portfolio_usdc r) /\
  (sd = USDC_TO_ETH -> 0 < Runner.portfolio_usdc r -> Runner.portfolio_usdc r' = 0) /\
  (sd = ETH_TO_USDC -> 0 < Runner.portfolio_eth r -> Runner.portfolio_eth r' = 0).
Proof.
  cbv zeta. unfold Runner.iteration.
  set (price := Runner.get_eth_price_stub (Runner.draw tk)).
  destruct (Runner.realize args i tk r) as [[[s2 es] ep] ez].
  destruct (decide s2 price (Runner.portfolio_eth r) (Runner.portfolio_usdc r) None)
    as [sd s3].
  gt_cases (Runner.portfolio_usdc r) 0; gt_cases (Runner.portfolio_eth r) 0;
    destruct sd; cbn [TradeSide_eqb andb fst snd Runner.portfolio_eth
                      Runner.portfolio_usdc];
    (split; [| split]); intros; try reflexivity; try discriminate;
    try (split; reflexivity); try lra;
    repeat match goal with
           | H : _ \/ _ |- _ => destruct H
           | H : _ /\ _ |- _ => destruct H
           end; try discriminate; try lra.
Qed.

Lemma realize_memory (args : Runner.Args) (i : Z) (tk : Runner.Tick) (r : Runner.Run) :
  let s2 := fst (fst (fst (Runner.realize args i tk r))) in
  (forall sd ep,
     Runner.entry_side r = Some sd -> Runner.entry_price r = Some ep ->
     memory s2 =
       summarize_if_needed (Runner.tick_now tk)
         (appended_memory (Runner.strategy r)
            (new_record (Runner.tick_oid tk) (Runner.tick_stamp tk) sd ep
               (Runner.get_eth_price_stub (Runner.draw tk))
               (Runner.entry_size_eth r)))) /\
  (Runner.entry_side r = None \/ Runner.entry_price r = None ->
     memory s2 = memory (Runner.strategy r)).
Proof.
  cbv zeta. unfold Runner.realize.
  set (price := Runner.get_eth_price_stub (Runner.draw tk)).
  set (s1 := if (i <? Runner.observe_cycles args)%Z
             then observe (Runner.strategy r) price None else Runner.strategy r).
  assert (Hs1 : memory s1 = memory (Runner.strategy r))
    by (unfold s1; destruct (i <? Runner.observe_cycles args)%Z; reflexivity).
  split.
  - intros sd ep Hside Hprice. rewrite Hside, Hprice. cbn [fst].
    rewrite record_as_compaction. unfold appended_memory. rewrite Hs1. reflexivity.
  - intros [Hnone | Hnone]; rewrite Hnone.
    + exact Hs1.
    + destruct (Runner.entry_side r); exact Hs1.
Qed.

Lemma iteration_memory (args : Runner.Args) (i : Z) (tk : Runner.Tick) (r : Runner.Run) :
  memory (Runner.strategy (snd (Runner.iteration args i tk r)))
  = memory (fst (fst (fst (Runner.realize args i tk r)))).
Proof.
  unfold Runner.iteration.
  destruct (Runner.realize args i tk r) as [[[s2 es] ep] ez]. cbn [fst].
  pose proof (decide_state s2 (Runner.get_eth_price_stub (Runner.draw tk))
                (Runner.portfolio_eth r) (Runner.portfolio_usdc r) None) as Hdec.
  destruct (decide s2 _ _ _ None) as [sd s3]. cbn [snd] in Hdec. subst s3.
  destruct (TradeSide_eqb sd USDC_TO_ETH && _); [reflexivity |].
  destruct (TradeSide_eqb sd ETH_TO_USDC && _); reflexivity.
Qed.

Lemma new_record_in_log (s : StatefulSwapStrategy) (now : Q) (t : TradeObj) :
  In t (trades (summarize_if_needed now (appended_memory s t))).
Proof.
  destruct (fires_dec now (appended_memory s t)) as [Hf | Hidle].
  - rewrite (summarize_trades _ _ Hf).
    rewrite (proj1 (appended_memory_frame s t)). apply newest_kept.
  - rewrite (summarize_idle _ _ Hidle).
    rewrite (proj1 (appended_memory_frame s t)).
    apply in_or_app. right. left. reflexivity.
Qed.

(** X19: a pending entry is realized by the next iteration: its outcome is
    recorded against the price of that iteration, with the size of the
    entry, and is in the log when the iteration ends; an iteration without a
    pending entry leaves the memory of the strategy as it was. *)
Theorem iteration_realizes_pending_entry (args : Runner.Args) (i : Z)
    (tk : Runner.Tick) (r : Runner.Run) :
  let r' := snd (Runner.iteration args i tk r) in
  (forall sd ep,
     Runner.entry_side r = Some sd -> Runner.entry_price r = Some ep ->
     In (new_record (Runner.tick_oid tk) (Runner.tick_stamp tk) sd ep
           (Runner.get_eth_price_stub (Runner.draw tk)) (Runner.entry_size_eth r))
        (trades (memory (Runner.strategy r')))) /\
  (Runner.entry_side r = None \/ Runner.entry_price r = None ->
     memory (Runner.strategy r') = memory (Runner.strategy r)).
Proof.
  cbv zeta. rewrite iteration_memory.
  destruct (realize_memory args i tk r) as [Hsome Hnone].
  split.
  - intros sd ep Hside Hprice. rewrite (Hsome sd ep Hside Hprice).
    apply new_record_in_log.
  - exact Hnone.
Qed.

(** ** The whole loop *)

Lemma loop_cons (args : Runner.Args) (i : Z) (tk : Runner.Tick)
    (rest : list Runner.Tick) (r : Runner.Run) :
  Runner.loop args i (tk :: rest) r =
    (fst (Runner.iteration args i tk r)
       :: fst (Runner.loop args (i + 1) rest (snd (Runner.iteration args i tk r))),
     snd (Runner.loop args (i + 1) rest (snd (Runner.iteration args i tk r)))).
Proof.
  cbn [Runner.loop].
  destruct (Runner.iteration args i tk r) as [sd r1]. cbn [fst snd].
  destruct (Runner.loop args (i + 1) rest r1) as [sds r2]. reflexivity.
Qed.

(** A property of the ticks and an invariant of the state, indexed by the
    loop counter, that every iteration keeps hold when the loop ends, and
    every decision made on the way has what the invariant gives. *)
Lemma loop_invariant (args : Runner.Args)
    (ok : Runner.Tick -> Prop) (P : Z -> Runner.Run -> Prop)
    (D : Z -> TradeSide -> Prop) :
  (forall i tk r, ok tk -> P i r ->
     P (i + 1)%Z (snd (Runner.iteration args i tk r)) /\
     D i (fst (Runner.iteration args i tk r))) ->
  forall ticks i r,
    Forall ok ticks -> P i r ->
    P (i + Z.of_nat (length ticks))%Z (snd (Runner.loop args i ticks r)) /\
    (forall k sd, nth_error (fst (Runner.loop args i ticks r)) k = Some sd ->
                  D (i + Z.of_nat k)%Z sd).
Proof.
  intros Hstep ticks.
  induction ticks as [| tk rest IH]; intros i r Hok HP.
  - cbn [Runner.loop snd fst length]. split.
    + replace (i + Z.of_nat 0)%Z with i by lia. exact HP.
    + intros [| k] sd H; discriminate H.
  - rewrite loop_cons. cbn [fst snd length].
    inversion Hok as [| tk' rest' Htk Hrest]; subst.
    destruct (Hstep i tk r Htk HP) as [HP1 HD].
    destruct (IH (i + 1)%Z _ Hrest HP1) as [HPend HDrest].
    split.
    + replace (i + Z.of_nat (S (length rest)))%Z
        with (i + 1 + Z.of_nat (length rest))%Z by lia.
      exact HPend.
    + intros [| k] sd H; cbn [nth_error] in H.
      * injection H as <-. replace (i + Z.of_nat 0)%Z with i by lia. exact HD.
      * replace (i + Z.of_nat (S k))%Z with (i + 1 + Z.of_nat k)%Z by lia.
        apply HDrest. exact H.
Qed.

Lemma Forall_firstn {A : Type} (P : A -> Prop) (n : nat) (l : list A) :
  Forall P l -> Forall P (firstn n l).
Proof.
  revert n. induction l as [| x l IH]; intros [| n] H; cbn [firstn];
    try constructor.
  - inversion H; assumption.
  - apply IH. inversion H; assumption.
Qed.

Lemma iteration_keeps_balances_nonnegative (args : Runner.Args) (i : Z)
    (tk : Runner.Tick) (r : Runner.Run) :
  0 < Runner.get_eth_price_stub (Runner.draw tk) ->
  0 <= Runner.portfolio_eth r /\ 0 <= Runner.portfolio_usdc r ->
  0 <= Runner.portfolio_eth (snd (Runner.iteration args i tk r)) /\
  0 <= Runner.portfolio_usdc (snd (Runner.iteration args i tk r)).
Proof.
  intros Hpos [Heth Husdc]. unfold Runner.iteration.
  set (price := Runner.get_eth_price_stub (Runner.draw tk)) in *.
  destruct (Runner.realize args i tk r) as [[[s2 es] ep] ez].
  destruct (decide s2 price (Runner.portfolio_eth r) (Runner.portfolio_usdc r) None)
    as [sd s3].
  destruct (TradeSide_eqb sd USDC_TO_ETH && Py.gtb (Runner.portfolio_usdc r) 0) eqn:Hbuy.
  - apply andb_true_iff in Hbuy. destruct Hbuy as [Hsd _].
    apply TradeSide_eqb_eq in Hsd. subst sd.
    cbn [snd fst Runner.execute_swap_stub Runner.portfolio_eth Runner.portfolio_usdc].
    apply gtb_true in Hpos. rewrite Hpos. apply gtb_true in Hpos.
    split; [| apply Qle_refl].
    assert (0 <= Runner.portfolio_usdc r / price)
      by (apply Qle_shift_div_l; [exact Hpos | lra]).
    lra.
  - destruct (TradeSide_eqb sd ETH_TO_USDC && Py.gtb (Runner.portfolio_eth r) 0) eqn:Hsell.
    + apply andb_true_iff in Hsell. destruct Hsell as [Hsd _].
      apply TradeSide_eqb_eq in Hsd. subst sd.
      cbn [snd fst Runner.execute_swap_stub Runner.portfolio_eth Runner.portfolio_usdc].
      split; [apply Qle_refl | nra].
    + cbn [snd Runner.portfolio_eth Runner.portfolio_usdc]. split; assumption.
Qed.

(** X20: a run that starts with balances that are not negative, on prices
    the stub can produce, ends with balances that are not negative. *)
Theorem main_keeps_balances_nonnegative (args : Runner.Args) (ticks : list Runner.Tick) :
  Runner.draws_in_range ticks ->
  0 <= Runner.initial_eth args ->
  0 <= Runner.initial_usdc args ->
  0 <= Runner.portfolio_eth (snd (Runner.main args ticks)) /\
  0 <= Runner.portfolio_usdc (snd (Runner.main args ticks)).
Proof.
  intros Hdraws Heth Husdc. unfold Runner.main.
  apply (loop_invariant args
           (fun tk => -30 <= Runner.draw tk <= 30)
           (fun _ r => 0 <= Runner.portfolio_eth r /\ 0 <= Runner.portfolio_usdc r)
           (fun _ _ => True)).
  - intros i tk r Hok HP. split; [| exact I].
    apply iteration_keeps_balances_nonnegative; [| exact HP].
    pose proof (price_stub_range _ Hok). lra.
  - apply Forall_firstn. exact Hdraws.
  - split; assumption.
Qed.

Lemma rising_ticks_in_range : Runner.draws_in_range Runner.rising_ticks.
Proof.
  unfold Runner.draws_in_range, Runner.rising_ticks. cbn [seq map].
  repeat (constructor; [split; vm_compute; discriminate |]). constructor.
Defined.

Lemma main_keeps_balances_nonnegative_witness :
  Runner.draws_in_range Runner.rising_ticks /\
  0 <= Runner.initial_eth Runner.short_args /\
  0 <= Runner.initial_usdc Runner.short_args /\
  0 <= Runner.portfolio_eth (snd (Runner.main Runner.short_args Runner.rising_ticks)).
Proof.
  assert (Heth : 0 <= Runner.initial_eth Runner.short_args)
    by (vm_compute; discriminate).
  assert (Husdc : 0 <= Runner.initial_usdc Runner.short_args)
    by (vm_compute; discriminate).
  split; [exact rising_ticks_in_range |]. split; [exact Heth |].
  split; [exact Husdc |].
  exact (proj1 (main_keeps_balances_nonnegative Runner.short_args Runner.rising_ticks
                  rising_ticks_in_range Heth Husdc)).
Defined.

Lemma iteration_entry_side (args : Runner.Args) (i : Z) (tk : Runner.Tick)
    (r : Runner.Run) :
  Runner.entry_side r <> Some HOLD ->
  Runner.entry_side (snd (Runner.iteration args i tk r)) <> Some HOLD.
Proof.
  intro Hside. unfold Runner.iteration.
  assert (Hreal : snd (fst (fst (Runner.realize args i tk r))) <> Some HOLD).
  { unfold Runner.realize.
    destruct (Runner.entry_side r) as [sd |]; [| cbn; discriminate].
    destruct (Runner.entry_price r); cbn; [discriminate | exact Hside]. }
  destruct (Runner.realize args i tk r) as [[[s2 es] ep] ez]. cbn [fst snd] in Hreal.
  destruct (decide s2 _ _ _ None) as [sd s3].
  destruct (TradeSide_eqb sd USDC_TO_ETH && _) eqn:Hbuy.
  - apply andb_true_iff in Hbuy. destruct Hbuy as [Hsd _].
    apply TradeSide_eqb_eq in Hsd. subst sd. cbn. discriminate.
  - destruct (TradeSide_eqb sd ETH_TO_USDC && _) eqn:Hsell.
    + apply andb_true_iff in Hsell. destruct Hsell as [Hsd _].
      apply TradeSide_eqb_eq in Hsd. subst sd. cbn. discriminate.
    + cbn. exact Hreal.
Qed.

(** X21: the loop never records a HOLD outcome: every record in the log of
    the strategy when [main] ends has a trade side. *)
Theorem main_never_records_hold (args : Runner.Args) (ticks : list Runner.Tick)
    (t : TradeObj) :
  In t (trades (memory (Runner.strategy (snd (Runner.main args ticks))))) ->
  side (val t) <> HOLD.
Proof.
  unfold Runner.main.
  destruct (loop_invariant args (fun _ => True)
              (fun _ r => Runner.entry_side r <> Some HOLD /\
                          forall u, In u (trades (memory (Runner.strategy r))) ->
                                    side (val u) <> HOLD)
              (fun _ _ => True)) with
    (ticks := firstn (Z.to_nat (Runner.iterations args)) ticks)
    (i := 0%Z) (r := Runner.start args) as [[_ Hlog] _].
  - intros i tk r _ [Hside Hlog]. split; [| exact I].
    split; [apply iteration_entry_side, Hside |].
    intros u Hu. rewrite iteration_memory in Hu.
    destruct (realize_memory args i tk r) as [Hsome Hnone].
    destruct (Runner.entry_side r) as [sd |] eqn:Es.
    + destruct (Runner.entry_price r) as [ep |] eqn:Ep.
      * rewrite (Hsome sd ep eq_refl eq_refl) in Hu.
        apply summarize_incl in Hu.
        rewrite (proj1 (appended_memory_frame _ _)) in Hu.
        apply in_app_or in Hu. destruct Hu as [Hu | [<- | []]].
        -- apply Hlog, Hu.
        -- cbn [new_record val side]. congruence.
      * rewrite (Hnone (or_intror eq_refl)) in Hu. apply Hlog, Hu.
    + rewrite (Hnone (or_introl eq_refl)) in Hu. apply Hlog, Hu.
  - clear. induction (firstn (Z.to_nat (Runner.iterations args)) ticks);
      constructor; [exact I | assumption].
  - split; [cbn; discriminate | intros u []].
  - intro Hin. apply Hlog. exact Hin.
Qed.

Lemma main_never_records_hold_witness :
  In (new_record 2 1002 USDC_TO_ETH 2990 3000 (3000 / 2990))
     (trades (memory (Runner.strategy
        (snd (Runner.main Runner.short_args Runner.rising_ticks))))) /\
  side (val (new_record 2 1002 USDC_TO_ETH 2990 3000 (3000 / 2990))) <> HOLD.
Proof.
  assert (Hin : In (new_record 2 1002 USDC_TO_ETH 2990 3000 (3000 / 2990))
                   (trades (memory (Runner.strategy
                      (snd (Runner.main Runner.short_args Runner.rising_ticks))))))
    by (vm_compute; left; reflexivity).
  split; [exact Hin |].
  exact (main_never_records_hold Runner.short_args Runner.rising_ticks _ Hin).
Defined.

(** A decision without market bias between equal average PnL values is
    HOLD, with or without a threshold. *)
Lemma decide_holds_on_tie (s : StatefulSwapStrategy) (price eth usdc : Q)
    (sig : option Q) :
  market_bias s price sig == 0 ->
  avg_pnl (memory s) USDC_TO_ETH == avg_pnl (memory s) ETH_TO_USDC ->
  fst (decide s price eth usdc sig) = HOLD.
Proof.
  intros Hbias Havg.
  destruct (Z.ltb_spec (observed_cycles s) (observe_cycles_before_trade s))
    as [Hwarm | Hactive].
  - unfold decide. apply Z.ltb_lt in Hwarm. rewrite Hwarm. reflexivity.
  - rewrite (decide_active s price eth usdc sig Hactive). cbv zeta.
    set (buy := buy_score s price sig). set (sell := sell_score s price sig).
    assert (Htie : buy == sell).
    { unfold buy, sell, buy_score, sell_score. rewrite Hbias, Havg. ring. }
    destruct (Py.leb (rebalance_threshold s) 0) eqn:Hthr.
    + gt_cases buy sell; [lra |]. gt_cases sell buy; [lra |]. reflexivity.
    + apply leb_false in Hthr. unfold Py.abs.
      cmp_cases (Qabs (buy - sell)) (rebalance_threshold s); [reflexivity |].
      exfalso.
      assert (Hzero : Qabs (buy - sell) == 0).
      { rewrite Htie. setoid_replace (sell - sell) with 0 by ring. reflexivity. }
      rewrite Hzero in Hcmp. lra.
Qed.

Lemma signal_after_observe (s : StatefulSwapStrategy) (price : Q) (vol : option Q) :
  _market_signal (observe s price vol) price == 0.
Proof.
  rewrite (market_signal_value (observe s price vol) price price eq_refl).
  gt_cases price 0; [| reflexivity].
  assert (Hrel : (price - price) / price == 0).
  { field. intro E. rewrite E in Hcmp. discriminate. }
  unfold Spec.clamp.
  destruct (Qlt_le_dec ((price - price) / price) (-0.02)) as [H | H];
    [rewrite Hrel in H; discriminate H |].
  destruct (Qlt_le_dec 0.02 ((price - price) / price)) as [H' | H'];
    [rewrite Hrel in H'; discriminate H' | exact Hrel].
Qed.

(** An iteration inside the warmup window, with no pending entry and equal
    average PnL values, decides HOLD and changes neither the balances nor
    the memory. *)
Lemma warmup_iteration (args : Runner.Args) (i : Z) (tk : Runner.Tick) (r : Runner.Run) :
  (i < Runner.observe_cycles args)%Z ->
  Runner.entry_side r = None ->
  avg_pnl (memory (Runner.strategy r)) USDC_TO_ETH
    == avg_pnl (memory (Runner.strategy r)) ETH_TO_USDC ->
  fst (Runner.iteration args i tk r) = HOLD /\
  Runner.entry_side (snd (Runner.iteration args i tk r)) = None /\
  memory (Runner.strategy (snd (Runner.iteration args i tk r)))
    = memory (Runner.strategy r) /\
  Runner.portfolio_eth (snd (Runner.iteration args i tk r)) = Runner.portfolio_eth r /\
  Runner.portfolio_usdc (snd (Runner.iteration args i tk r)) = Runner.portfolio_usdc r.
Proof.
  intros Hwarm Hside Havg.
  pose proof (iteration_memory args i tk r) as Hmem.
  destruct (realize_memory args i tk r) as [_ Hnone].
  rewrite (Hnone (or_introl Hside)) in Hmem.
  unfold Runner.iteration in *. unfold Runner.realize in *.
  apply Z.ltb_lt in Hwarm. rewrite Hwarm, Hside in *. cbv beta iota zeta in *.
  set (price := Runner.get_eth_price_stub (Runner.draw tk)) in *.
  pose proof (decide_holds_on_tie (observe (Runner.strategy r) price None) price
                (Runner.portfolio_eth r) (Runner.portfolio_usdc r) None
                (signal_after_observe (Runner.strategy r) price None) Havg) as Hhold.
  destruct (decide (observe (Runner.strategy r) price None) price
              (Runner.portfolio_eth r) (Runner.portfolio_usdc r) None) as [sd s3].
  cbn [fst] in Hhold. subst sd. cbn [TradeSide_eqb andb fst snd] in *.
  repeat split. exact Hmem.
Qed.

(** X22: the loop makes no trade during warmup: each of the first
    [observe_cycles] decisions of a run is HOLD.  The gate of [decide]
    accounts for all but the last of them; the last one is a tie, the price
    just observed giving no signal and the empty log no preference. *)
Theorem main_holds_during_warmup (args : Runner.Args) (ticks : list Runner.Tick)
    (k : nat) (sd : TradeSide) :
  nth_error (fst (Runner.main args ticks)) k = Some sd ->
  (Z.of_nat k < Runner.observe_cycles args)%Z ->
  sd = HOLD.
Proof.
  unfold Runner.main. intros Hk Hwarm.
  destruct (loop_invariant args (fun _ => True)
              (fun i r => (i <= Runner.observe_cycles args)%Z ->
                          Runner.entry_side r = None /\
                          avg_pnl (memory (Runner.strategy r)) USDC_TO_ETH
                            == avg_pnl (memory (Runner.strategy r)) ETH_TO_USDC)
              (fun i d => (i < Runner.observe_cycles args)%Z -> d = HOLD))
    with (ticks := firstn (Z.to_nat (Runner.iterations args)) ticks)
         (i := 0%Z) (r := Runner.start args) as [_ Hdec].
  - intros i tk r _ HP. split.
    + intro Hnext.
      assert (Hlt : (i < Runner.observe_cycles args)%Z) by lia.
      destruct HP as [Hside Havg]; [lia |].
      destruct (warmup_iteration args i tk r Hlt Hside Havg)
        as (_ & Hside' & Hmem & _).
      rewrite Hmem. split; assumption.
    + intro Hlt. destruct HP as [Hside Havg]; [lia |].
      apply (warmup_iteration args i tk r Hlt Hside Havg).
  - clear. induction (firstn (Z.to_nat (Runner.iterations args)) ticks);
      constructor; [exact I | assumption].
  - intros _. split; reflexivity.
  - apply (Hdec k sd Hk). lia.
Qed.

Lemma main_holds_during_warmup_witness :
  nth_error (fst (Runner.main Runner.warmup_args Runner.rising_ticks)) 2 = Some HOLD /\
  (Z.of_nat 2 < Runner.observe_cycles Runner.warmup_args)%Z /\
  HOLD = HOLD.
Proof.
  assert (Hk : nth_error (fst (Runner.main Runner.warmup_args Runner.rising_ticks)) 2
               = Some HOLD)
    by (vm_compute; reflexivity).
  assert (Hwarm : (Z.of_nat 2 < Runner.observe_cycles Runner.warmup_args)%Z)
    by (vm_compute; reflexivity).
  split; [exact Hk |]. split; [exact Hwarm |].
  exact (main_holds_during_warmup Runner.warmup_args Runner.rising_ticks 2 HOLD Hk Hwarm).
Defined.

(** * A further edge of the compaction *)

(** X23: a compaction that fires on a log of at most 10 records, which a
    [max_trades_kept] below 10 allows, drops nothing: the log is unchanged
    and only the time of the last compaction moves. *)
Theorem short_log_compaction_keeps_everything (now : Q) (m : StrategyMemory) :
  Spec.compaction_fires now m ->
  Spec.same_identity_same_record (trades m) ->
  (length (trades m) <= 10)%nat ->
  trades (summarize_if_needed now m) = trades m /\
  last_summary_at (summarize_if_needed now m) = now.
Proof.
  intros Hf Hheap Hshort.
  split; [| apply (summarize_fires_frame now m Hf)].
  rewrite (summarize_trades now m Hf).
  destruct (kept_trades_spec (trades m) Hheap) as (extra & Hkept & Hempty & Hbest).
  replace (length (trades m) - 10)%nat with 0%nat in * by lia.
  cbn [skipn] in *.
  assert (Hextra : extra = []).
  { destruct (trades m) as [| t ts] eqn:E; [apply Hempty; reflexivity |].
    destruct (max_by_first_highest (t :: ts)) as (i & b & _ & Hfirst);
      [discriminate |].
    apply (proj1 (Hbest i b Hfirst)).
    destruct Hfirst as (Hi & _). apply (nth_error_In _ _ Hi). }
  rewrite Hkept, Hextra. apply app_nil_r.
Qed.

Lemma short_log_compaction_keeps_everything_witness :
  Spec.compaction_fires 1000
    (appended_memory (new_strategy 0 0 0) (new_record 0 1000 USDC_TO_ETH 3000 3100 1)) /\
  Spec.same_identity_same_record
    (trades (appended_memory (new_strategy 0 0 0)
               (new_record 0 1000 USDC_TO_ETH 3000 3100 1))) /\
  (length (trades (appended_memory (new_strategy 0 0 0)
                     (new_record 0 1000 USDC_TO_ETH 3000 3100 1))) <= 10)%nat /\
  trades (summarize_if_needed 1000
            (appended_memory (new_strategy 0 0 0)
               (new_record 0 1000 USDC_TO_ETH 3000 3100 1)))
  = trades (appended_memory (new_strategy 0 0 0)
              (new_record 0 1000 USDC_TO_ETH 3000 3100 1)).
Proof.
  assert (Hf : Spec.compaction_fires 1000
                 (appended_memory (new_strategy 0 0 0)
                    (new_record 0 1000 USDC_TO_ETH 3000 3100 1)))
    by (split; vm_compute; [reflexivity | discriminate]).
  assert (Hheap : Spec.same_identity_same_record
                    (trades (appended_memory (new_strategy 0 0 0)
                               (new_record 0 1000 USDC_TO_ETH 3000 3100 1))))
    by (apply distinct_consistent, distinct_objects_check; vm_compute; reflexivity).
  assert (Hshort : (length (trades (appended_memory (new_strategy 0 0 0)
                              (new_record 0 1000 USDC_TO_ETH 3000 3100 1))) <= 10)%nat)
    by (vm_compute; repeat constructor).
  split; [exact Hf |]. split; [exact Hheap |]. split; [exact Hshort |].
  exact (proj1 (short_log_compaction_keeps_everything 1000 _ Hf Hheap Hshort)).
Defined.
